(** * SpreadsheetML to CSV: row reconstruction and header normalisation

    A shallow embedding of [app.py].  Python values are modelled as
    follows.

    - [str] is [string]; every character stands for one code point
      below 256, so the whitespace tables below are the restrictions
      of Python's tables to that range.
    - [int] is [Z] (Python integers are unbounded).
    - [List[str]] is [list string]; [values.append(x)] is [values ++ [x]].
    - [xml.etree.ElementTree.Element] is the record [Element]; its
      [attrib] dictionary is a [gmap string string].
    - [int(idx)] either returns or raises [ValueError]; it is modelled
      by [Py.int : string -> option Z], [None] being the exception
      that the [try]/[except ValueError] of [parse_rows] catches.
    - The program is given twice.  The first part leaves exceptions
      out: lists grow to any length and the library calls of [main]
      return.  The module [Exn] gives [parse_rows] and [main] again
      with lists of a bounded capacity, whose [append] raises
      [MemoryError], and with library calls that may raise. *)

From Equations Require Import Equations.
From Stdlib Require Import ZArith Ascii String.
From stdpp Require Import gmap strings list.

Local Open Scope Z_scope.

(** ** Python string built-ins used by the program *)

Module Py.

(** Code point of a character. *)
Definition ord (c : ascii) : nat := nat_of_ascii c.

(** Whitespace for [str.strip()]: the code points below 256 for which
    [str.isspace] holds (TAB..CR, FS..US, SPACE, NEL, NBSP). *)
Definition is_str_space (c : ascii) : bool :=
  let n := ord c in
  ((9 <=? n) && (n <=? 13) || (28 <=? n) && (n <=? 32)
   || (n =? 133) || (n =? 160))%nat.

(** Whitespace accepted around the digits by [int(str)]: the C
    [isspace] set, plus the non-ASCII spaces, which [int] first turns
    into [' '].  FS..US are stripped by [str.strip] but refused by
    [int]. *)
Definition is_int_space (c : ascii) : bool :=
  let n := ord c in
  ((9 <=? n) && (n <=? 13) || (n =? 32) || (n =? 133) || (n =? 160))%nat.

Definition is_digit (c : ascii) : bool :=
  let n := ord c in ((48 <=? n) && (n <=? 57))%nat.

Definition digit_value (c : ascii) : Z := Z.of_nat (ord c - 48).

Definition is_empty (s : string) : bool :=
  match s with EmptyString => true | String _ _ => false end.

(** [s.lstrip(...)] for the character class [p]. *)
Fixpoint lstrip_with (p : ascii -> bool) (s : string) : string :=
  match s with
  | EmptyString => EmptyString
  | String c s' => if p c then lstrip_with p s' else s
  end.

(** [s.rstrip(...)] for the character class [p]. *)
Fixpoint rstrip_with (p : ascii -> bool) (s : string) : string :=
  match s with
  | EmptyString => EmptyString
  | String c s' =>
      let r := rstrip_with p s' in
      if p c && is_empty r then EmptyString else String c r
  end.

Definition strip_with (p : ascii -> bool) (s : string) : string :=
  rstrip_with p (lstrip_with p s).

(** [s.strip()] *)
Definition strip (s : string) : string := strip_with is_str_space s.

(** [s.strip(ch)] for a one-character argument. *)
Definition strip_char (ch : ascii) (s : string) : string :=
  strip_with (Ascii.eqb ch) s.

(** The digit part of an integer literal: digits, with single
    underscores allowed between two digits.  [acc] is the value read
    so far and [prev_us] tells whether the previous character was an
    underscore.  Returns the value and the unread rest, or [None]
    for a doubled or trailing underscore. *)
Fixpoint scan_digits (acc : Z) (prev_us : bool) (s : string)
  : option (Z * string) :=
  match s with
  | EmptyString => if prev_us then None else Some (acc, s)
  | String c s' =>
      if is_digit c then scan_digits (10 * acc + digit_value c) false s'
      else if Ascii.eqb c "_" then
        if prev_us then None else scan_digits acc true s'
      else if prev_us then None else Some (acc, s)
  end.

(** After the optional sign: at least one digit, no leading
    underscore, then only whitespace up to the end. *)
Definition int_unsigned (s : string) : option Z :=
  match s with
  | EmptyString => None
  | String c _ =>
      if is_digit c then
        match scan_digits 0 false s with
        | Some (n, rest) =>
            if is_empty (lstrip_with is_int_space rest) then Some n else None
        | None => None
        end
      else None
  end.

(** [int(s)] for a [str] argument in base 10; [None] is [ValueError].
    The cap that CPython 3.11 puts on the number of digits of a
    literal (4300 unless reconfigured) is left out; beyond it [int]
    raises [ValueError] as well. *)
Definition int (s : string) : option Z :=
  match lstrip_with is_int_space s with
  | String "+" s' => int_unsigned s'
  | String "-" s' => Z.opp <$> int_unsigned s'
  | s' => int_unsigned s'
  end.

End Py.

(** ** ElementTree elements *)

(** An [xml.etree.ElementTree.Element]: a tag in Clark notation
    ([{namespace}local]), the attribute dictionary, the text before
    the first child (Python's [None] when there is none), and the
    child elements in document order. *)
#[warning="-register-all"] Inductive Element : Type :=
  mkElement {
    tag : string;
    attrib : gmap string string;
    text : option string;
    children : list Element
  }.

(** [NS["ss"]] *)
Definition NS_ss : string := "urn:schemas-microsoft-com:office:spreadsheet".

(** The tag or attribute name that the prefixed name [ss:local] stands
    for under [NS]; [f"{{{NS['ss']}}}Index"] is [qname "Index"]. *)
Definition qname (local : string) : string :=
  String.append "{" (String.append NS_ss (String.append "}" local)).

(** [e.findall("ss:<local>", NS)]: the direct children of [e] with that
    tag, in document order. *)
Definition findall (local : string) (e : Element) : list Element :=
  filter (λ c, tag c = qname local) (children e).

(** [e.find("ss:<local>", NS)]: the first match of the same search, or
    [None]. *)
Definition find (local : string) (e : Element) : option Element :=
  head (findall local e).

(** [e.get(key)] *)
Definition get (key : string) (e : Element) : option string :=
  attrib e !! key.

(** ** The row parser *)

(** [get_cell_text(cell)] *)
Definition get_cell_text (cell : Element) : string :=
  match find "Data" cell with
  | None => ""
  | Some data =>
      match text data with
      | None => ""
      | Some t => Py.strip t
      end
  end.

(** The gap-filling loop of [parse_rows]:
    [while current_col < target_col: values.append(""); current_col += 1].
    The result is the pair of [values] and [current_col] on exit.  The
    loop runs [target_col - current_col] times when that is positive
    and not at all otherwise, which is the measure of the recursion. *)
Equations? fill_gaps (values : list string) (current_col target_col : Z)
  : list string * Z by wf (Z.to_nat (target_col - current_col)) lt :=
  fill_gaps values current_col target_col
    with decide (current_col < target_col) := {
    | left _ := fill_gaps (values ++ [""%string]) (current_col + 1) target_col;
    | right _ := (values, current_col) }.
Proof. lia. Qed.

(** The state of the loop over the cells of one row. *)
Record RowState : Type := mkRowState {
  values : list string;
  current_col : Z
}.

(** Before the first cell: [values = []], [current_col = 1]. *)
Definition row_init : RowState := mkRowState [] 1.

(** The body of [for cell in row.findall("ss:Cell", NS)]. *)
Definition cell_step (st : RowState) (cell : Element) : RowState :=
  let '(vs, col) :=
    match get (qname "Index") cell with
    | Some idx =>
        let target_col :=
          match Py.int idx with
          | Some n => n
          | None => current_col st
          end in
        fill_gaps (values st) (current_col st) target_col
    | None => (values st, current_col st)
    end in
  mkRowState (vs ++ [get_cell_text cell]) (col + 1).

(** The loop over a sequence of cells, from a given state. *)
Definition cells_loop (st : RowState) (cells : list Element) : RowState :=
  foldl cell_step st cells.

(** The state after the last cell of [row]. *)
Definition row_final (row : Element) : RowState :=
  cells_loop row_init (findall "Cell" row).

(** The list appended to [rows_out] for [row]. *)
Definition parse_row (row : Element) : list string :=
  values (row_final row).

(** [parse_rows(table)] *)
Definition parse_rows (table : Element) : list (list string) :=
  foldl (λ rows_out row, rows_out ++ [parse_row row]) [] (findall "Row" table).

(** ** The run *)

(** What [main] observes of its environment: the line that [input]
    returns, the two file-system tests on a path, the result of
    [ET.parse(path).getroot()] (left: the [ET.ParseError] raised), and
    [Path.cwd()]. *)
Record World : Type := mkWorld {
  stdin_line : string;
  path_exists : string -> bool;
  path_is_file : string -> bool;
  et_parse : string -> string + Element;
  cwd : string
}.

(** [Path(s)]: the path object built from the string [s].  What an
    f-string shows of it is [str] of the object, pathlib's normal form
    of [s] on the platform (repeated and trailing separators and [.]
    components dropped, the empty string shown as a dot); that text
    is not modelled, the object is kept instead. *)
Inductive Path : Type :=
  | mkPath (s : string).

(** The five one-line messages printed to [sys.stderr]; the first
    shows the path object that failed the tests. *)
Inductive Diagnostic : Type :=
  | FileNotFound (xml_path : Path)
  | XmlParseFailed (e : string)
  | NoWorksheet
  | NoTable
  | NoRows.

(** The effects of a run, in order: a line on [sys.stderr], the CSV
    file written (directory, file name, rows handed to the writer), and
    the final line on [sys.stdout] with the number of data rows.  The
    prompt that [input] prints is not recorded, and the file system is
    taken to accept the write.  [OpenedCsv] is the file opened for
    writing, so created or emptied, without all the rows written to
    it; it occurs only in [Exn.main], when the write fails. *)
Inductive Event : Type :=
  | PrintErr (d : Diagnostic)
  | WriteCsv (dir name : string) (rows : list (list string))
  | PrintDone (n : nat) (dir name : string)
  | OpenedCsv (dir name : string).

(** The body of [for r in data_rows] without the append: the row that
    is appended to [normalized]. *)
Definition normalize_row (header_len : nat) (r : list string) : list string :=
  if (length r <? header_len)%nat then
    r ++ replicate (header_len - length r) ""%string
  else if (header_len <? length r)%nat then take header_len r
  else r.

(** The list [normalized] after the loop. *)
Definition normalize (header_len : nat) (data_rows : list (list string))
  : list (list string) :=
  foldl (λ normalized r, normalized ++ [normalize_row header_len r]) [] data_rows.

(** [main] from [all_rows = parse_rows(table)] on. *)
Definition main_table (w : World) (table : Element) : list Event * Z :=
  let all_rows := parse_rows table in
  match all_rows with
  | [] => ([PrintErr NoRows], 2)
  | headers :: data_rows =>
      let header_len := length headers in
      let normalized := normalize header_len data_rows in
      ([WriteCsv (cwd w) "output.csv" (headers :: normalized);
        PrintDone (length normalized) (cwd w) "output.csv"], 0)
  end.

(** The line read by [input], stripped of whitespace, then of double
    quotes, then of single quotes, at both ends: the path that [main]
    tests and parses. *)
Definition xml_path_str (w : World) : string :=
  Py.strip_char "'" (Py.strip_char (ascii_of_nat 34) (Py.strip (stdin_line w))).

(** [main()]: the events of the run and the value returned, which is
    the exit status of the process. *)
Definition main (w : World) : list Event * Z :=
  let xml_path := xml_path_str w in
  if negb (path_exists w xml_path) || negb (path_is_file w xml_path) then
    ([PrintErr (FileNotFound (mkPath xml_path))], 2)
  else
    match et_parse w xml_path with
    | inl e => ([PrintErr (XmlParseFailed e)], 2)
    | inr root =>
        match find "Worksheet" root with
        | None => ([PrintErr NoWorksheet], 2)
        | Some worksheet =>
            match find "Table" worksheet with
            | None => ([PrintErr NoTable], 2)
            | Some table => main_table w table
            end
        end
    end.

(** A run writes a file when one of its events is a [WriteCsv]. *)
Definition is_write (ev : Event) : bool :=
  match ev with WriteCsv _ _ _ => true | _ => false end.

Definition writes_file (run : list Event * Z) : bool :=
  existsb is_write run.1.

(** ** Editing a tree *)

(** [del e.attrib[key]] when the key is present, nothing otherwise. *)
Definition remove_attrib (key : string) (e : Element) : Element :=
  mkElement (tag e) (delete key (attrib e)) (text e) (children e).

(** [e[i] = c]: child number [i] replaced, for [i] in range. *)
Definition set_child (i : nat) (c : Element) (e : Element) : Element :=
  mkElement (tag e) (attrib e) (text e) (<[i := c]> (children e)).

(** ** The program with its exceptions

    The definitions above describe a run in which memory never runs
    out and the library calls of [main] return.  The module [Exn]
    gives the program again with the exceptions it can meet: a list
    that cannot grow raises [MemoryError], [int] raises [ValueError],
    and a call into the library or the system may raise an exception
    that [main] does not catch.  A Python list holds at most
    [list_cap] entries; on a 64-bit CPython the cap is at most
    [py_list_limit], and less when memory is short. *)

(** The exceptions that occur: the two raised inside [parse_rows], and
    any other exception, by name, that a call of [main] into the
    library or the system raises ([EOFError], [OSError],
    [LookupError] and the like). *)
Inductive Exception : Type :=
  | ValueError
  | MemoryError
  | OtherError (name : string).

(** How a computation ends: with a value, or with an exception. *)
Inductive Outcome (A : Type) : Type :=
  | Returns (a : A)
  | Raises (e : Exception).

Arguments Returns {A} a.
Arguments Raises {A} e.

Definition bind {A B : Type} (c : Outcome A) (k : A -> Outcome B) : Outcome B :=
  match c with
  | Returns a => k a
  | Raises e => Raises e
  end.

Notation "'let*' p ':=' c 'in' k" := (bind c (fun p => k))
  (at level 10, p pattern, c at level 100, k at level 200).


(** What the calls of [main] do on the host, each returning or
    raising: [input], [Path.exists], [Path.is_file],
    [ET.parse(path).getroot()] (returning [inl] for the [ET.ParseError]
    that [main] catches), [print], [Path.cwd], [open] for writing in a
    directory, and the writing of the rows up to the closing of the
    file; and the capacity of lists. *)
Record Host : Type := mkHost {
  host_input : Outcome string;
  host_exists : string -> Outcome bool;
  host_is_file : string -> Outcome bool;
  host_parse : string -> Outcome (string + Element);
  host_print : Event -> Outcome unit;
  host_cwd : Outcome string;
  host_open : string -> Outcome unit;
  host_write : string -> list (list string) -> Outcome unit;
  list_cap : Z
}.

(** The path in a line read by [input]: the line stripped of white
    space, then of double quotes, then of single quotes. *)
Definition typed_path (line : string) : string :=
  Py.strip_char "'" (Py.strip_char (ascii_of_nat 34) (Py.strip line)).

Module Exn.

(** [l.append(x)] for a list that can hold [list_cap] entries. *)
Definition append {A : Type} (list_cap : Z) (l : list A) (x : A)
  : Outcome (list A) :=
  if decide (Z.of_nat (length l) < list_cap) then Returns (l ++ [x])
  else Raises MemoryError.

(** [int(idx)] *)
Definition int (idx : string) : Outcome Z :=
  match Py.int idx with
  | Some n => Returns n
  | None => Raises ValueError
  end.

(** [try: c  except ValueError: handler] *)
Definition except_ValueError {A : Type} (c handler : Outcome A) : Outcome A :=
  match c with
  | Raises ValueError => handler
  | _ => c
  end.

(** The gap-filling loop, each [append] of which may fail. *)
Equations? fill_gaps (list_cap : Z) (values : list string)
    (current_col target_col : Z)
  : Outcome (list string * Z) by wf (Z.to_nat (target_col - current_col)) lt :=
  fill_gaps list_cap values current_col target_col
    with decide (current_col < target_col) := {
    | left _ with append list_cap values ""%string := {
      | Returns values' :=
          fill_gaps list_cap values' (current_col + 1) target_col;
      | Raises e := Raises e };
    | right _ := Returns (values, current_col) }.
Proof. lia. Qed.

(** The body of the loop over the cells. *)
Definition cell_step (list_cap : Z) (st : RowState) (cell : Element)
  : Outcome RowState :=
  let* (vs, col) :=
    match get (qname "Index") cell with
    | Some idx =>
        let* target_col :=
          except_ValueError (int idx) (Returns (current_col st)) in
        fill_gaps list_cap (values st) (current_col st) target_col
    | None => Returns (values st, current_col st)
    end in
  let* vs' := append list_cap vs (get_cell_text cell) in
  Returns (mkRowState vs' (col + 1)).

(** The loop over the cells, which stops at the first exception. *)
Fixpoint cells_loop (list_cap : Z) (st : RowState) (cells : list Element)
  : Outcome RowState :=
  match cells with
  | [] => Returns st
  | cell :: cells' =>
      let* st' := cell_step list_cap st cell in
      cells_loop list_cap st' cells'
  end.

(** The loop over the rows, from a given [rows_out]. *)
Fixpoint rows_loop (list_cap : Z) (rows_out : list (list string))
    (rows : list Element) : Outcome (list (list string)) :=
  match rows with
  | [] => Returns rows_out
  | row :: rows' =>
      let* st := cells_loop list_cap row_init (findall "Cell" row) in
      let* rows_out' := append list_cap rows_out (values st) in
      rows_loop list_cap rows_out' rows'
  end.

(** [parse_rows(table)] *)
Definition parse_rows (list_cap : Z) (table : Element)
  : Outcome (list (list string)) :=
  rows_loop list_cap [] (findall "Row" table).

(** [print(...)] followed by [return status]. *)
Definition print_return (h : Host) (ev : Event) (status : Z)
  : list Event * Outcome Z :=
  match host_print h ev with
  | Raises e => ([], Raises e)
  | Returns _ => ([ev], Returns status)
  end.

(** [main] from [all_rows = parse_rows(table)] on.  The lists built by
    the normalisation are no longer than the header row and the list
    of rows, which exist by then, so that none of them fails to
    grow. *)
Definition main_table (h : Host) (table : Element) : list Event * Outcome Z :=
  match parse_rows (list_cap h) table with
  | Raises e => ([], Raises e)
  | Returns [] => print_return h (PrintErr NoRows) 2
  | Returns (headers :: data_rows) =>
      let normalized := normalize (length headers) data_rows in
      match host_cwd h with
      | Raises e => ([], Raises e)
      | Returns dir =>
          match host_open h dir with
          | Raises e => ([], Raises e)
          | Returns _ =>
              match host_write h dir (headers :: normalized) with
              | Raises e => ([OpenedCsv dir "output.csv"], Raises e)
              | Returns _ =>
                  let written := WriteCsv dir "output.csv" (headers :: normalized) in
                  let done := PrintDone (length normalized) dir "output.csv" in
                  match host_print h done with
                  | Raises e => ([written], Raises e)
                  | Returns _ => ([written; done], Returns 0)
                  end
              end
          end
      end
  end.

(** [xml_path.exists()] and, if it holds, [xml_path.is_file()]: the
    negation of the condition of the first [if], which stops at the
    first test that fails. *)
Definition is_existing_file (h : Host) (xml_path : string) : Outcome bool :=
  let* e := host_exists h xml_path in
  if (e : bool) then host_is_file h xml_path else Returns false.

(** [main()]: the events up to the return or the exception, and the
    value returned or the exception that leaves [main].  The
    interpreter ends with the value returned as exit status, and with
    a traceback and an error status of its own when an exception
    leaves [main]. *)
Definition main (h : Host) : list Event * Outcome Z :=
  match host_input h with
  | Raises e => ([], Raises e)
  | Returns line =>
      let xml_path := typed_path line in
      match is_existing_file h xml_path with
      | Raises e => ([], Raises e)
      | Returns false =>
          print_return h (PrintErr (FileNotFound (mkPath xml_path))) 2
      | Returns true =>
          match host_parse h xml_path with
          | Raises e => ([], Raises e)
          | Returns (inl e) => print_return h (PrintErr (XmlParseFailed e)) 2
          | Returns (inr root) =>
              match find "Worksheet" root with
              | None => print_return h (PrintErr NoWorksheet) 2
              | Some worksheet =>
                  match find "Table" worksheet with
                  | None => print_return h (PrintErr NoTable) 2
                  | Some table => main_table h table
                  end
              end
          end
      end
  end.

End Exn.



(** ** Quantities used in the statements *)

(** The number of empty strings that the loop body puts before the
    text of [cell] when it runs in state [st]: the distance from the
    cursor to the parsed index when the index lies ahead, zero when
    the index is absent, does not parse, or is not ahead. *)
Definition gap (st : RowState) (cell : Element) : nat :=
  match get (qname "Index") cell with
  | Some idx =>
      match Py.int idx with
      | Some n => Z.to_nat (n - current_col st)
      | None => 0%nat
      end
  | None => 0%nat
  end.

(** The cursor counts the strings appended so far, plus one. *)
Definition cursor_ok (st : RowState) : Prop :=
  Z.of_nat (length (values st)) = current_col st - 1.

(** The column that the index attribute of [cell] names, when there is
    one and it parses. *)
Definition cell_index (cell : Element) : option Z :=
  get (qname "Index") cell ≫= Py.int.

(** [e.set(key, value)] *)
Definition set_attrib (key value : string) (e : Element) : Element :=
  mkElement (tag e) (<[key := value]> (attrib e)) (text e) (children e).

(** The first and the last character of a string. *)
Definition first_char (s : string) : option ascii :=
  match s with EmptyString => None | String c _ => Some c end.

Fixpoint last_char (s : string) : option ascii :=
  match s with
  | EmptyString => None
  | String c EmptyString => Some c
  | String _ s' => last_char s'
  end.

(** Every character of the string is in the class [p]. *)
Fixpoint all_chars (p : ascii -> bool) (s : string) : bool :=
  match s with
  | EmptyString => true
  | String c s' => p c && all_chars p s'
  end.

(** Neither end of the string is in the class [p]. *)
Definition trimmed (p : ascii -> bool) (s : string) : Prop :=
  (forall c, first_char s = Some c -> p c = false)
  /\ (forall c, last_char s = Some c -> p c = false).

(** The rows handed to the CSV writer by a run, if it wrote a file. *)
Definition written_rows (run : list Event * Z) : option (list (list string)) :=
  match run.1 with
  | WriteCsv _ _ rows :: _ => Some rows
  | _ => None
  end.


(** ** Sample documents *)

Module Sample.

(** [<Data>t</Data>] *)
Definition data (t : string) : Element :=
  mkElement (qname "Data") ∅ (Some t) [].

(** [<Cell><Data>t</Data></Cell>] *)
Definition cell (t : string) : Element :=
  mkElement (qname "Cell") ∅ None [data t].

(** [<Cell ss:Index="i"><Data>t</Data></Cell>] *)
Definition cell_at (i t : string) : Element :=
  mkElement (qname "Cell") {[ qname "Index" := i ]} None [data t].

(** [<Cell/>] *)
Definition cell_empty : Element := mkElement (qname "Cell") ∅ None [].

Definition row (cells : list Element) : Element :=
  mkElement (qname "Row") ∅ None cells.

Definition table (rows : list Element) : Element :=
  mkElement (qname "Table") ∅ None rows.

Definition worksheet (tables : list Element) : Element :=
  mkElement (qname "Worksheet") ∅ None tables.

Definition workbook (sheets : list Element) : Element :=
  mkElement (qname "Workbook") ∅ None sheets.

(** A world in which the path typed is a file that parses to [root]. *)
Definition world (root : Element) : World :=
  mkWorld "book.xml" (λ _, true) (λ _, true) (λ _, inr root) "/tmp".

(** Scenario A: a header row without indices. *)
Definition row_A : Element := row [cell "Name"; cell "Age"].

(** Scenario B: cells at columns 1 and 3. *)
Definition row_B : Element := row [cell_at "1" "A"; cell_at "3" "C"].

(** Scenario C: the second cell has no [Data] child. *)
Definition row_C : Element := row [cell "x"; cell_empty].

(** Scenario F: a cell whose index is not a number. *)
Definition row_F : Element := row [cell "x"; cell_at "abc" "y"].

(** An index that points backwards: column 3, then column 1. *)
Definition row_back : Element := row [cell_at "3" "C"; cell_at "1" "A"].



(** Scenario E: a table without rows. *)
Definition book_E : Element := workbook [worksheet [table []]].

(** Two worksheets, the first with two tables. *)
Definition book_two : Element :=
  workbook
    [worksheet [table [row_A; row_B]; table [row_C]];
     worksheet [table [row_F]]].

End Sample.

(** * Properties *)

(** ** The string built-ins on sample inputs *)

Example int_plain : Py.int "3" = Some 3.
Proof. reflexivity. Qed.

Example int_spaces_sign : Py.int "  -12 " = Some (-12).
Proof. reflexivity. Qed.

Example int_underscore : Py.int "1_000" = Some 1000.
Proof. reflexivity. Qed.

Example int_abc : Py.int "abc" = None.
Proof. reflexivity. Qed.

Example int_empty : Py.int "" = None.
Proof. reflexivity. Qed.

Example int_bad_underscore : Py.int "1__0" = None /\ Py.int "_1" = None /\ Py.int "1_" = None.
Proof. repeat split; reflexivity. Qed.

Example int_sign_space : Py.int "+ 5" = None.
Proof. reflexivity. Qed.

Example strip_both : Py.strip "  a b  " = "a b"%string.
Proof. reflexivity. Qed.


(** ** The gap-filling loop *)

Section FillGaps.


(** The loop appends one empty string per column between the cursor
    and the target, and leaves the cursor on the larger of the two. *)
Lemma fill_gaps_closed (vs : list string) (col target : Z) :
  fill_gaps vs col target
  = (vs ++ replicate (Z.to_nat (target - col)) ""%string, Z.max col target).
Proof.
  funelim (fill_gaps vs col target).
  - match goal with IH : fill_gaps _ _ _ = (_ ++ _, _) |- _ => rewrite IH end.
    replace (Z.to_nat (target_col - current_col0))
      with (S (Z.to_nat (target_col - (current_col0 + 1)))) by lia.
    rewrite <- (assoc_L (++)). simpl. f_equal. lia.
  - replace (Z.to_nat (target_col - current_col0)) with 0%nat by lia.
    simpl. rewrite (right_id_L [] (++)). f_equal. lia.
Qed.

(** A target at or before the cursor leaves the state alone. *)
Lemma fill_gaps_none (vs : list string) (col target : Z) :
  target <= col -> fill_gaps vs col target = (vs, col).
Proof.
  intros Hle. rewrite fill_gaps_closed.
  replace (Z.to_nat (target - col)) with 0%nat by lia.
  simpl. rewrite (right_id_L [] (++)). f_equal. lia.
Qed.

End FillGaps.

(** ** One cell *)

Section CellStep.

Variables (st : RowState) (cell : Element).

Lemma cell_step_gap :
  cell_step st cell
  = mkRowState
      (values st ++ replicate (gap st cell) ""%string ++ [get_cell_text cell])
      (current_col st + Z.of_nat (gap st cell) + 1).
Proof.
  unfold cell_step, gap.
  destruct (get (qname "Index") cell) as [idx|]; [destruct (Py.int idx) as [n|]|].
  - rewrite fill_gaps_closed, <- (assoc_L (++)). f_equal. lia.
  - rewrite fill_gaps_none by lia. simpl. f_equal. lia.
  - simpl. f_equal. lia.
Qed.

Lemma cell_step_plain :
  gap st cell = 0%nat ->
  cell_step st cell
  = mkRowState (values st ++ [get_cell_text cell]) (current_col st + 1).
Proof. intros H0. rewrite cell_step_gap, H0. simpl. f_equal. lia. Qed.

Lemma gap_no_index : get (qname "Index") cell = None -> gap st cell = 0%nat.
Proof. unfold gap. intros ->. reflexivity. Qed.

Lemma gap_bad_index (idx : string) :
  get (qname "Index") cell = Some idx -> Py.int idx = None -> gap st cell = 0%nat.
Proof. unfold gap. intros -> ->. reflexivity. Qed.

Lemma gap_index (idx : string) (n : Z) :
  get (qname "Index") cell = Some idx -> Py.int idx = Some n ->
  gap st cell = Z.to_nat (n - current_col st).
Proof. unfold gap. intros -> ->. reflexivity. Qed.

Lemma cell_step_cursor_ok : cursor_ok st -> cursor_ok (cell_step st cell).
Proof.
  unfold cursor_ok. rewrite cell_step_gap. simpl.
  rewrite !length_app, length_replicate. simpl. lia.
Qed.

Lemma cell_step_prefix : values st `prefix_of` values (cell_step st cell).
Proof. rewrite cell_step_gap. simpl. apply prefix_app_r. reflexivity. Qed.

Lemma cell_step_cursor_lt : current_col st < current_col (cell_step st cell).
Proof. rewrite cell_step_gap. simpl. lia. Qed.

(** The cursor moves by the number of strings appended. *)
Lemma cell_step_advance :
  current_col (cell_step st cell) - current_col st
  = Z.of_nat (length (values (cell_step st cell))) - Z.of_nat (length (values st)).
Proof.
  rewrite cell_step_gap. simpl.
  rewrite !length_app, length_replicate. simpl. lia.
Qed.

End CellStep.

(** ** The loop over the cells of a row *)

Lemma cells_loop_app (st : RowState) (cells1 cells2 : list Element) :
  cells_loop st (cells1 ++ cells2) = cells_loop (cells_loop st cells1) cells2.
Proof. apply foldl_app. Qed.

Lemma cells_loop_cursor_ok (st : RowState) (cells : list Element) :
  cursor_ok st -> cursor_ok (cells_loop st cells).
Proof.
  revert st. induction cells as [|c cells IH]; intros st Hok; simpl; [done|].
  apply IH, cell_step_cursor_ok, Hok.
Qed.

Lemma cells_loop_prefix (st : RowState) (cells : list Element) :
  values st `prefix_of` values (cells_loop st cells).
Proof.
  revert st. induction cells as [|c cells IH]; intros st; simpl; [done|].
  etrans; [apply cell_step_prefix | apply IH].
Qed.

Lemma cells_loop_cursor_le (st : RowState) (cells : list Element) :
  current_col st <= current_col (cells_loop st cells).
Proof.
  revert st. induction cells as [|c cells IH]; intros st; simpl; [lia|].
  pose proof (cell_step_cursor_lt st c). specialize (IH (cell_step st c)). lia.
Qed.

Lemma cells_loop_advance (st : RowState) (cells : list Element) :
  current_col (cells_loop st cells) - current_col st
  = Z.of_nat (length (values (cells_loop st cells))) - Z.of_nat (length (values st)).
Proof.
  revert st. induction cells as [|c cells IH]; intros st; simpl; [lia|].
  pose proof (cell_step_advance st c). specialize (IH (cell_step st c)). lia.
Qed.


Lemma cursor_ok_init : cursor_ok row_init.
Proof. reflexivity. Qed.

Lemma row_final_cursor_ok (row : Element) : cursor_ok (row_final row).
Proof. apply cells_loop_cursor_ok, cursor_ok_init. Qed.

(** ** The loop over the rows of a table *)

Lemma rows_loop_map (acc : list (list string)) (rows : list Element) :
  foldl (λ rows_out row, rows_out ++ [parse_row row]) acc rows
  = acc ++ map parse_row rows.
Proof.
  revert acc. induction rows as [|r rows IH]; intros acc; simpl.
  - by rewrite (right_id_L [] (++)).
  - by rewrite IH, <- (assoc_L (++)).
Qed.

Lemma parse_rows_map (table : Element) :
  parse_rows table = map parse_row (findall "Row" table).
Proof. apply rows_loop_map. Qed.

Lemma elem_of_parse_rows (table row : Element) :
  row ∈ findall "Row" table -> parse_row row ∈ parse_rows table.
Proof. rewrite parse_rows_map. apply list_elem_of_fmap_2. Qed.

(** Without explicit positions the loop copies the texts. *)
Lemma cells_loop_plain (st : RowState) (cells : list Element) :
  Forall (λ c, get (qname "Index") c = None) cells ->
  cells_loop st cells
  = mkRowState (values st ++ map get_cell_text cells)
               (current_col st + Z.of_nat (length cells)).
Proof.
  intros Hall. revert st.
  induction Hall as [|c cells Hc _ IH]; intros st; simpl.
  - destruct st as [vs col]. simpl. rewrite (right_id_L [] (++)). f_equal. lia.
  - rewrite IH, cell_step_plain by (by apply gap_no_index). simpl.
    rewrite <- (assoc_L (++)). simpl. f_equal. lia.
Qed.

(** ** Claims about the reconstruction of a row *)

(** C1. Scenario B: a row whose two cells carry the indices 1 and 3 and
    the texts "A" and "C" is reconstructed as ["A"; ""; "C"], and that
    is the entry of [parse_rows] for it in any table that contains the
    row.  In general, a cell whose index parses to a column beyond the
    cursor gets one empty string for every skipped column before its
    text, and leaves the cursor just after its own column. *)
Theorem gap_fill_scenario_B
    (table row c1 c2 : Element) (i1 i2 : string) :
  row ∈ findall "Row" table ->
  findall "Cell" row = [c1; c2] ->
  get (qname "Index") c1 = Some i1 -> Py.int i1 = Some 1 ->
  get_cell_text c1 = "A"%string ->
  get (qname "Index") c2 = Some i2 -> Py.int i2 = Some 3 ->
  get_cell_text c2 = "C"%string ->
  parse_row row = ["A"; ""; "C"]%string
  /\ ["A"; ""; "C"]%string ∈ parse_rows table
  /\ forall (st : RowState) (cell : Element) (idx : string) (n : Z),
       get (qname "Index") cell = Some idx -> Py.int idx = Some n ->
       current_col st < n ->
       cell_step st cell
       = mkRowState
           (values st ++ replicate (Z.to_nat (n - current_col st)) ""%string
              ++ [get_cell_text cell])
           (n + 1).
Proof.
  intros Hrow Hcells Hi1 Hn1 Ht1 Hi2 Hn2 Ht2.
  assert (parse_row row = ["A"; ""; "C"]%string) as Hparse.
  { unfold parse_row, row_final, cells_loop. rewrite Hcells. simpl.
    rewrite !cell_step_gap.
    rewrite (gap_index _ c1 i1 1 Hi1 Hn1). simpl.
    rewrite (gap_index _ c2 i2 3 Hi2 Hn2). simpl.
    by rewrite Ht1, Ht2. }
  split; [exact Hparse|]. split.
  - rewrite <- Hparse. by apply elem_of_parse_rows.
  - intros st cell idx n Hidx Hn Hlt.
    rewrite cell_step_gap, (gap_index st cell idx n Hidx Hn).
    f_equal. lia.
Qed.

Lemma gap_fill_scenario_B_witness :
  parse_row Sample.row_B = ["A"; ""; "C"]%string
  /\ ["A"; ""; "C"]%string ∈ parse_rows (Sample.table [Sample.row_A; Sample.row_B]).
Proof.
  pose proof (gap_fill_scenario_B
                (Sample.table [Sample.row_A; Sample.row_B]) Sample.row_B
                (Sample.cell_at "1" "A") (Sample.cell_at "3" "C") "1" "3") as H.
  destruct H as (H1 & H2 & _); try reflexivity.
  - vm_compute. apply list_elem_of_further, list_elem_of_here.
  - split; [exact H1 | exact H2].
Defined.

(** C2. A row in which no cell carries an index attribute is
    reconstructed as the list of its cells' texts, in source order. *)
Theorem no_index_row_is_texts (row : Element) :
  Forall (λ c, get (qname "Index") c = None) (findall "Cell" row) ->
  parse_row row = map get_cell_text (findall "Cell" row).
Proof.
  intros Hall. unfold parse_row, row_final.
  by rewrite cells_loop_plain.
Qed.

Lemma no_index_row_is_texts_witness :
  parse_row Sample.row_A = ["Name"; "Age"]%string.
Proof.
  rewrite (no_index_row_is_texts Sample.row_A); [reflexivity|].
  vm_compute. repeat constructor.
Defined.

(** C3. A cell whose index parses to a column before the cursor gets
    no empty strings: its text is appended at the cursor, which is the
    column it occupies in the reconstructed row.  What was appended
    before stays where it was, and no cell ever moves the cursor back
    or changes an earlier entry. *)
Theorem backward_index_appends_at_cursor
    (row cell : Element) (before after : list Element) (idx : string) (n : Z) :
  findall "Cell" row = before ++ cell :: after ->
  get (qname "Index") cell = Some idx ->
  Py.int idx = Some n ->
  n < current_col (cells_loop row_init before) ->
  cell_step (cells_loop row_init before) cell
  = mkRowState (values (cells_loop row_init before) ++ [get_cell_text cell])
               (current_col (cells_loop row_init before) + 1)
  /\ parse_row row !! Z.to_nat (current_col (cells_loop row_init before) - 1)
     = Some (get_cell_text cell)
  /\ values (cells_loop row_init before) `prefix_of` parse_row row
  /\ forall (st : RowState) (c : Element),
       current_col st < current_col (cell_step st c)
       /\ values st `prefix_of` values (cell_step st c).
Proof.
  intros Hcells Hidx Hn Hlt.
  set (st := cells_loop row_init before) in *.
  assert (cell_step st cell
          = mkRowState (values st ++ [get_cell_text cell]) (current_col st + 1))
    as Hstep.
  { apply cell_step_plain. rewrite (gap_index st cell idx n Hidx Hn). lia. }
  assert (values (cell_step st cell) `prefix_of` parse_row row) as Hpre.
  { unfold parse_row, row_final. rewrite Hcells, cells_loop_app. simpl.
    apply cells_loop_prefix. }
  assert (cursor_ok st) as Hok by apply cells_loop_cursor_ok, cursor_ok_init.
  split; [exact Hstep|]. split; [|split].
  - eapply prefix_lookup_Some; [|exact Hpre].
    rewrite Hstep. simpl.
    replace (Z.to_nat (current_col st - 1)) with (length (values st))
      by (unfold cursor_ok in Hok; lia).
    by rewrite list_lookup_middle.
  - etrans; [apply cell_step_prefix | exact Hpre].
  - intros st' c. split; [apply cell_step_cursor_lt | apply cell_step_prefix].
Qed.

Lemma backward_index_appends_at_cursor_witness :
  parse_row Sample.row_back !! 3%nat = Some "A"%string
  /\ [""; ""; "C"]%string `prefix_of` parse_row Sample.row_back.
Proof.
  pose proof (backward_index_appends_at_cursor
                Sample.row_back (Sample.cell_at "1" "A")
                [Sample.cell_at "3" "C"] [] "1" 1) as H.
  destruct H as (_ & H2 & H3 & _); try reflexivity.
  split; [exact H2 | exact H3].
Defined.

(** C4. The reconstructed row has as many entries as the final cursor
    minus one.  The cursor starts at 1, and each cell moves it by the
    number of empty strings put before the cell plus one for the
    cell's own text, which is also the number of entries the cell
    adds. *)
Theorem row_length_is_cursor_minus_one (row : Element) :
  Z.of_nat (length (parse_row row)) = current_col (row_final row) - 1
  /\ current_col row_init = 1
  /\ values row_init = []
  /\ forall (st : RowState) (cell : Element),
       current_col (cell_step st cell)
       = current_col st + Z.of_nat (gap st cell) + 1
       /\ length (values (cell_step st cell))
          = (length (values st) + gap st cell + 1)%nat.
Proof.
  split; [apply row_final_cursor_ok|]. split; [reflexivity|].
  split; [reflexivity|].
  intros st cell. rewrite cell_step_gap. simpl.
  rewrite !length_app, length_replicate. simpl. split; lia.
Qed.

(** ** Replacing a child *)

(** Replacing a child by an element with the same tag changes a
    [findall] at that child only, if at all. *)
Lemma findall_set_child (local : string) (e c c' : Element) (i : nat) :
  children e !! i = Some c -> tag c' = tag c ->
  exists pre post : list Element,
    (findall local e = pre ++ post
     /\ findall local (set_child i c' e) = pre ++ post)
    \/ (findall local e = pre ++ c :: post
        /\ findall local (set_child i c' e) = pre ++ c' :: post).
Proof.
  intros Hi Htag. unfold findall, set_child. simpl.
  destruct (list_elem_of_split_length _ _ _ Hi) as (l1 & l2 & -> & ->).
  replace (length l1) with (length l1 + 0)%nat by lia.
  rewrite insert_app_r. simpl.
  exists (filter (λ x, tag x = qname local) l1),
         (filter (λ x, tag x = qname local) l2).
  rewrite !filter_app, !filter_cons, Htag.
  destruct (decide (tag c = qname local)); [right | left]; done.
Qed.

Lemma parse_row_set_child (row cell cell' : Element) (i : nat) :
  children row !! i = Some cell -> tag cell' = tag cell ->
  (forall st, cell_step st cell' = cell_step st cell) ->
  parse_row (set_child i cell' row) = parse_row row.
Proof.
  intros Hi Htag Hstep. unfold parse_row, row_final.
  destruct (findall_set_child "Cell" row cell cell' i Hi Htag)
    as (pre & post & [[-> ->] | [-> ->]]); [reflexivity|].
  rewrite !cells_loop_app. simpl. by rewrite Hstep.
Qed.

Lemma parse_rows_set_child (table row row' : Element) (j : nat) :
  children table !! j = Some row -> tag row' = tag row ->
  parse_row row' = parse_row row ->
  parse_rows (set_child j row' table) = parse_rows table.
Proof.
  intros Hj Htag Hrow. rewrite !parse_rows_map.
  destruct (findall_set_child "Row" table row row' j Hj Htag)
    as (pre & post & [[-> ->] | [-> ->]]); [reflexivity|].
  rewrite !map_app. simpl. by rewrite Hrow.
Qed.

Lemma get_cell_text_remove_attrib (key : string) (cell : Element) :
  get_cell_text (remove_attrib key cell) = get_cell_text cell.
Proof. reflexivity. Qed.

Lemma get_remove_attrib (key : string) (cell : Element) :
  get key (remove_attrib key cell) = None.
Proof. unfold get, remove_attrib. simpl. apply lookup_delete_eq. Qed.

(** C5. A cell whose index attribute does not parse as an integer is
    handled without an error, as a cell without the attribute: in
    every state its text is appended at the cursor with no empty
    string before it, and removing the attribute from the cell changes
    neither the reconstructed row nor the result of [parse_rows] on a
    table that holds the row. *)
Theorem malformed_index_is_no_index
    (table row cell : Element) (j i : nat) (idx : string) :
  children table !! j = Some row ->
  children row !! i = Some cell ->
  get (qname "Index") cell = Some idx ->
  Py.int idx = None ->
  (forall st : RowState,
     cell_step st cell
     = mkRowState (values st ++ [get_cell_text cell]) (current_col st + 1))
  /\ get (qname "Index") (remove_attrib (qname "Index") cell) = None
  /\ (forall st : RowState,
        cell_step st cell = cell_step st (remove_attrib (qname "Index") cell))
  /\ parse_row (set_child i (remove_attrib (qname "Index") cell) row)
     = parse_row row
  /\ parse_rows
       (set_child j (set_child i (remove_attrib (qname "Index") cell) row) table)
     = parse_rows table.
Proof.
  intros Hj Hi Hidx Hbad.
  assert (forall st, cell_step st cell
                     = cell_step st (remove_attrib (qname "Index") cell)) as Hsame.
  { intros st.
    rewrite (cell_step_plain st cell) by exact (gap_bad_index st cell idx Hidx Hbad).
    rewrite (cell_step_plain st (remove_attrib _ cell))
      by apply gap_no_index, get_remove_attrib.
    reflexivity. }
  assert (parse_row (set_child i (remove_attrib (qname "Index") cell) row)
          = parse_row row) as Hrow.
  { apply (parse_row_set_child row cell); [exact Hi | reflexivity |].
    intros st. symmetry. apply Hsame. }
  split; [|split; [|split; [|split]]].
  - intros st. apply cell_step_plain, (gap_bad_index st cell idx Hidx Hbad).
  - apply get_remove_attrib.
  - exact Hsame.
  - exact Hrow.
  - apply (parse_rows_set_child table row); [exact Hj | reflexivity | exact Hrow].
Qed.

Lemma malformed_index_is_no_index_witness :
  parse_rows (Sample.table [Sample.row_A; Sample.row [Sample.cell "x"; Sample.cell "y"]])
  = parse_rows (Sample.table [Sample.row_A; Sample.row_F])
  /\ parse_row Sample.row_F = ["x"; "y"]%string.
Proof.
  pose proof (malformed_index_is_no_index
                (Sample.table [Sample.row_A; Sample.row_F]) Sample.row_F
                (Sample.cell_at "abc" "y") 1 1 "abc") as H.
  destruct H as (_ & _ & _ & _ & H5); try reflexivity.
  split; [|reflexivity].
  etrans; [|exact H5]. vm_compute. reflexivity.
Defined.

(** ** Cells without text, rows without gaps *)



Lemma parse_row_length_ge (row : Element) :
  (length (findall "Cell" row) <= length (parse_row row))%nat.
Proof.
  unfold parse_row, row_final.
  pose proof (cells_loop_advance row_init (findall "Cell" row)) as Hadv.
  assert (forall st cells,
             current_col st + Z.of_nat (length cells)
             <= current_col (cells_loop st cells)) as Hle.
  { intros st cells. revert st.
    induction cells as [|c cells IH]; intros st; simpl; [lia|].
    pose proof (cell_step_cursor_lt st c). specialize (IH (cell_step st c)). lia. }
  specialize (Hle row_init (findall "Cell" row)). simpl in *. lia.
Qed.

(** ** Normalisation to the header width *)

Lemma normalize_row_length (header_len : nat) (r : list string) :
  length (normalize_row header_len r) = header_len.
Proof.
  unfold normalize_row.
  destruct (Nat.ltb_spec (length r) header_len) as [Hlt | Hge].
  - rewrite length_app, length_replicate. lia.
  - destruct (Nat.ltb_spec header_len (length r)) as [Hgt | Hle].
    + rewrite length_take. lia.
    + lia.
Qed.

Lemma normalize_row_fixed (header_len : nat) (r : list string) :
  length r = header_len -> normalize_row header_len r = r.
Proof.
  intros Hlen. unfold normalize_row.
  destruct (Nat.ltb_spec (length r) header_len); [lia|].
  destruct (Nat.ltb_spec header_len (length r)); [lia|]. reflexivity.
Qed.

Lemma normalize_loop_map (header_len : nat) (acc rows : list (list string)) :
  foldl (λ normalized r, normalized ++ [normalize_row header_len r]) acc rows
  = acc ++ map (normalize_row header_len) rows.
Proof.
  revert acc. induction rows as [|r rows IH]; intros acc; simpl.
  - by rewrite (right_id_L [] (++)).
  - by rewrite IH, <- (assoc_L (++)).
Qed.

Lemma normalize_map (header_len : nat) (rows : list (list string)) :
  normalize header_len rows = map (normalize_row header_len) rows.
Proof. apply normalize_loop_map. Qed.

(** C6. With [N] the length of the header row, every data row is
    normalised to a row of length exactly [N]: a shorter row is
    padded on the right with empty strings, a longer row is cut to
    its first [N] entries, a row of length [N] is kept.  The loop
    does this to every data row, in order, and nothing in it can
    fail. *)
Theorem normalize_to_header_width
    (headers r : list string) (data_rows : list (list string)) :
  length (normalize_row (length headers) r) = length headers
  /\ ((length r < length headers)%nat ->
      normalize_row (length headers) r
      = r ++ replicate (length headers - length r) ""%string)
  /\ ((length r > length headers)%nat ->
      normalize_row (length headers) r = take (length headers) r)
  /\ (length r = length headers -> normalize_row (length headers) r = r)
  /\ normalize (length headers) data_rows
     = map (normalize_row (length headers)) data_rows
  /\ Forall (λ r', length r' = length headers)
            (normalize (length headers) data_rows).
Proof.
  split; [apply normalize_row_length|].
  split; [|split; [|split; [|split]]].
  - intros Hlt. unfold normalize_row.
    destruct (Nat.ltb_spec (length r) (length headers)); [reflexivity | lia].
  - intros Hgt. unfold normalize_row.
    destruct (Nat.ltb_spec (length r) (length headers)); [lia|].
    destruct (Nat.ltb_spec (length headers) (length r)); [reflexivity | lia].
  - apply normalize_row_fixed.
  - apply normalize_map.
  - rewrite normalize_map. apply Forall_fmap, Forall_forall.
    intros r' _. apply normalize_row_length.
Qed.

Lemma normalize_to_header_width_witness :
  normalize_row 3 ["x"]%string = ["x"; ""; ""]%string
  /\ normalize_row 3 ["a"; "b"; "c"; "d"]%string = ["a"; "b"; "c"]%string
  /\ normalize_row 3 ["a"; "b"; "c"]%string = ["a"; "b"; "c"]%string.
Proof.
  split; [|split].
  - pose proof (normalize_to_header_width ["h1"; "h2"; "h3"]%string ["x"]%string [])
      as (_ & H & _).
    apply H. simpl. lia.
  - pose proof (normalize_to_header_width ["h1"; "h2"; "h3"]%string
                  ["a"; "b"; "c"; "d"]%string []) as (_ & _ & H & _).
    apply H. simpl. lia.
  - pose proof (normalize_to_header_width ["h1"; "h2"; "h3"]%string
                  ["a"; "b"; "c"]%string []) as (_ & _ & _ & H & _).
    apply H. reflexivity.
Defined.

(** C7. Normalising is idempotent: a row that already has the header
    width comes back unchanged, so normalising the result of a
    normalisation against the same headers changes nothing, for one
    row and for the whole list of data rows. *)
Theorem normalize_idempotent
    (headers r : list string) (data_rows : list (list string)) :
  (length r = length headers -> normalize_row (length headers) r = r)
  /\ normalize_row (length headers) (normalize_row (length headers) r)
     = normalize_row (length headers) r
  /\ normalize (length headers) (normalize (length headers) data_rows)
     = normalize (length headers) data_rows.
Proof.
  split; [apply normalize_row_fixed|]. split.
  - apply normalize_row_fixed, normalize_row_length.
  - rewrite !normalize_map, <- list_fmap_compose.
    apply list_fmap_ext. intros _ r' _. simpl.
    apply normalize_row_fixed, normalize_row_length.
Qed.

Lemma normalize_idempotent_witness :
  normalize_row 2 ["a"; "b"]%string = ["a"; "b"]%string
  /\ normalize_row 2 (normalize_row 2 ["a"; "b"; "c"]%string)
     = normalize_row 2 ["a"; "b"; "c"]%string.
Proof.
  pose proof (normalize_idempotent ["h1"; "h2"]%string ["a"; "b"]%string [])
    as (H1 & _).
  pose proof (normalize_idempotent ["h1"; "h2"]%string ["a"; "b"; "c"]%string [])
    as (_ & H2 & _).
  split; [apply H1; reflexivity | exact H2].
Defined.

(** ** The run *)

(** [find] returns the first child with the tag, whatever stands before
    it with another tag and whatever follows it. *)
Lemma find_first (local : string) (e c : Element) (before after : list Element) :
  children e = before ++ c :: after ->
  Forall (λ x, tag x ≠ qname local) before ->
  tag c = qname local ->
  find local e = Some c.
Proof.
  intros Hch Hbefore Htag. unfold find, findall. rewrite Hch.
  rewrite filter_app, filter_cons_True by exact Htag.
  replace (filter (λ x, tag x = qname local) before) with (@nil Element);
    [reflexivity|].
  symmetry. clear Hch.
  induction Hbefore as [|x before Hx _ IH]; [reflexivity|].
  by rewrite filter_cons_False.
Qed.

(** A run on a readable, well-formed document with a worksheet and a
    table is the run of [main_table] on that table. *)
Lemma main_reaches_table (w : World) (root worksheet table : Element) :
  path_exists w (xml_path_str w) = true ->
  path_is_file w (xml_path_str w) = true ->
  et_parse w (xml_path_str w) = inr root ->
  find "Worksheet" root = Some worksheet ->
  find "Table" worksheet = Some table ->
  main w = main_table w table.
Proof.
  intros Hex Hfile Hparse Hws Htab. unfold main.
  by rewrite Hex, Hfile, Hparse, Hws, Htab.
Qed.

(** C8. When the table has no [Row] child, the run prints the one
    diagnostic for a table without rows, returns the exit status 2,
    which is not zero, and does nothing else: no file is written. *)
Theorem no_rows_is_an_error (w : World) (root worksheet table : Element) :
  path_exists w (xml_path_str w) = true ->
  path_is_file w (xml_path_str w) = true ->
  et_parse w (xml_path_str w) = inr root ->
  find "Worksheet" root = Some worksheet ->
  find "Table" worksheet = Some table ->
  findall "Row" table = [] ->
  main w = ([PrintErr NoRows], 2)
  /\ (main w).2 ≠ 0
  /\ writes_file (main w) = false.
Proof.
  intros Hex Hfile Hparse Hws Htab Hrows.
  assert (main w = ([PrintErr NoRows], 2)) as Hmain.
  { rewrite (main_reaches_table w root worksheet table) by assumption.
    unfold main_table. by rewrite parse_rows_map, Hrows. }
  rewrite Hmain. split; [reflexivity|]. split; [simpl; lia | reflexivity].
Qed.

Lemma no_rows_is_an_error_witness :
  main (Sample.world Sample.book_E) = ([PrintErr NoRows], 2)
  /\ writes_file (main (Sample.world Sample.book_E)) = false.
Proof.
  pose proof (no_rows_is_an_error (Sample.world Sample.book_E) Sample.book_E
                (Sample.worksheet [Sample.table []]) (Sample.table [])) as H.
  destruct H as (H1 & _ & H3); try reflexivity.
  split; [exact H1 | exact H3].
Defined.

(** C10. Only the first worksheet and its first table are converted:
    when [worksheet] is the first child of the root tagged Worksheet
    and [table] the first child of it tagged Table, the run is the
    conversion of [table], whatever elements follow them, further
    worksheets and tables included; and the conversion of a table
    depends on nothing but the table and the working directory. *)
Theorem first_worksheet_first_table
    (w : World) (root worksheet table : Element)
    (before after before_t after_t : list Element) :
  path_exists w (xml_path_str w) = true ->
  path_is_file w (xml_path_str w) = true ->
  et_parse w (xml_path_str w) = inr root ->
  children root = before ++ worksheet :: after ->
  Forall (λ x, tag x ≠ qname "Worksheet") before ->
  tag worksheet = qname "Worksheet" ->
  children worksheet = before_t ++ table :: after_t ->
  Forall (λ x, tag x ≠ qname "Table") before_t ->
  tag table = qname "Table" ->
  main w = main_table w table
  /\ forall w' : World, cwd w' = cwd w -> main_table w' table = main_table w table.
Proof.
  intros Hex Hfile Hparse Hroot Hbefore Hws Hsheet Hbefore_t Htab. split.
  - apply (main_reaches_table w root worksheet table); try assumption.
    + exact (find_first "Worksheet" root worksheet before after Hroot Hbefore Hws).
    + exact (find_first "Table" worksheet table before_t after_t
               Hsheet Hbefore_t Htab).
  - intros w' Hcwd. unfold main_table. by rewrite Hcwd.
Qed.

Lemma first_worksheet_first_table_witness :
  main (Sample.world Sample.book_two)
  = ([WriteCsv "/tmp" "output.csv" [["Name"; "Age"]; ["A"; ""]]%string;
      PrintDone 1 "/tmp" "output.csv"], 0).
Proof.
  assert (main (Sample.world Sample.book_two)
          = main_table (Sample.world Sample.book_two)
              (Sample.table [Sample.row_A; Sample.row_B])) as H1.
  { apply (first_worksheet_first_table
             (Sample.world Sample.book_two) Sample.book_two
             (Sample.worksheet
                [Sample.table [Sample.row_A; Sample.row_B];
                 Sample.table [Sample.row_C]])
             (Sample.table [Sample.row_A; Sample.row_B])
             [] [Sample.worksheet [Sample.table [Sample.row_F]]]
             [] [Sample.table [Sample.row_C]]);
      first [reflexivity | constructor]. }
  rewrite H1. reflexivity.
Defined.

(** ** Further scenarios, by evaluation *)

(** Scenario C: a cell without a [Data] child has the empty text. *)
Example scenario_C : parse_row Sample.row_C = ["x"; ""]%string.
Proof. reflexivity. Qed.

(** Scenario F: a non-numeric index is passed over. *)
Example scenario_F : parse_row Sample.row_F = ["x"; "y"]%string.
Proof. reflexivity. Qed.

(** An index that points backwards shifts the text to the cursor. *)
Example scenario_back : parse_row Sample.row_back = [""; ""; "C"; "A"]%string.
Proof. reflexivity. Qed.

(** A document without a worksheet, and a worksheet without a table. *)
Example run_no_worksheet :
  main (Sample.world (Sample.workbook [])) = ([PrintErr NoWorksheet], 2).
Proof. reflexivity. Qed.

Example run_no_table :
  main (Sample.world (Sample.workbook [Sample.worksheet []]))
  = ([PrintErr NoTable], 2).
Proof. reflexivity. Qed.

(** Quotes and blanks around the typed path are dropped. *)
Example path_unquoted :
  xml_path_str (mkWorld "  'C:\data\book.xml'  " (λ _, true) (λ _, true)
                        (λ _, inl "") "")
  = "C:\data\book.xml"%string.
Proof. reflexivity. Qed.

(** * Further properties of the row parser *)

(** ** Where a cell lands *)

(** The reconstructed row, seen from a cell: what the cells before it
    produced, the empty strings of its gap, its text, and what the
    cells after it add. *)
Lemma parse_row_around (row cell : Element) (before after : list Element) :
  findall "Cell" row = before ++ cell :: after ->
  exists rest : list string,
    parse_row row
    = values (cells_loop row_init before)
        ++ replicate (gap (cells_loop row_init before) cell) ""%string
        ++ get_cell_text cell :: rest.
Proof.
  intros Hcells. unfold parse_row, row_final.
  rewrite Hcells, cells_loop_app. simpl.
  destruct (cells_loop_prefix (cell_step (cells_loop row_init before) cell) after)
    as [rest Hrest].
  exists rest. rewrite Hrest, cell_step_gap. simpl.
  by rewrite <- !(assoc_L (++)).
Qed.

Lemma cells_loop_init_ok (cells : list Element) :
  cursor_ok (cells_loop row_init cells).
Proof. apply cells_loop_cursor_ok, cursor_ok_init. Qed.

Lemma lookup_after_gap (vs rest : list string) (k : nat) (x : string) :
  (vs ++ replicate k ""%string ++ x :: rest) !! (length vs + k)%nat = Some x.
Proof.
  rewrite lookup_app_r by lia.
  replace (length vs + k - length vs)%nat with k by lia.
  rewrite lookup_app_r by (rewrite length_replicate; lia).
  rewrite length_replicate. by replace (k - k)%nat with 0%nat by lia.
Qed.

Lemma lookup_in_gap (vs rest : list string) (k j : nat) (x : string) :
  (length vs <= j < length vs + k)%nat ->
  (vs ++ replicate k ""%string ++ x :: rest) !! j = Some ""%string.
Proof.
  intros Hj. rewrite lookup_app_r by lia.
  rewrite lookup_app_l by (rewrite length_replicate; lia).
  apply lookup_replicate_2. lia.
Qed.

(** X1. A cell whose index parses to a column at or beyond the cursor
    lands in exactly that column of the reconstructed row, and the
    columns skipped to reach it hold the empty string. *)
Theorem cell_lands_at_its_index
    (row cell : Element) (before after : list Element) (idx : string) (n : Z) :
  findall "Cell" row = before ++ cell :: after ->
  get (qname "Index") cell = Some idx ->
  Py.int idx = Some n ->
  current_col (cells_loop row_init before) <= n ->
  parse_row row !! Z.to_nat (n - 1) = Some (get_cell_text cell)
  /\ forall col : Z,
       current_col (cells_loop row_init before) <= col < n ->
       parse_row row !! Z.to_nat (col - 1) = Some ""%string.
Proof.
  intros Hcells Hidx Hn Hle.
  destruct (parse_row_around row cell before after Hcells) as [rest ->].
  pose proof (cells_loop_init_ok before) as Hok. unfold cursor_ok in Hok.
  set (st := cells_loop row_init before) in *.
  rewrite (gap_index st cell idx n Hidx Hn). split.
  - replace (Z.to_nat (n - 1))
      with (length (values st) + Z.to_nat (n - current_col st))%nat by lia.
    apply lookup_after_gap.
  - intros col Hcol. apply lookup_in_gap. lia.
Qed.

Lemma cell_lands_at_its_index_witness :
  parse_row Sample.row_B !! 2%nat = Some "C"%string
  /\ parse_row Sample.row_B !! 1%nat = Some ""%string.
Proof.
  pose proof (cell_lands_at_its_index Sample.row_B (Sample.cell_at "3" "C")
                [Sample.cell_at "1" "A"] [] "3" 3) as H.
  destruct H as (H1 & H2);
    [reflexivity | reflexivity | reflexivity | apply Z.leb_le; reflexivity |].
  split; [exact H1|]. apply (H2 2).
  split; [apply Z.leb_le | apply Z.ltb_lt]; reflexivity.
Defined.

(** X2. A cell that names no usable column ahead of the cursor (no
    index, an index that does not parse, or one at or before the
    cursor) lands in the column of the cursor, which is the column
    right after everything the earlier cells produced. *)
Theorem cell_without_gap_lands_at_cursor
    (row cell : Element) (before after : list Element) :
  findall "Cell" row = before ++ cell :: after ->
  (forall n, cell_index cell = Some n ->
             n <= current_col (cells_loop row_init before)) ->
  parse_row row !! length (values (cells_loop row_init before))
  = Some (get_cell_text cell)
  /\ Z.of_nat (length (values (cells_loop row_init before))) + 1
     = current_col (cells_loop row_init before).
Proof.
  intros Hcells Hidx.
  destruct (parse_row_around row cell before after Hcells) as [rest ->].
  pose proof (cells_loop_init_ok before) as Hok. unfold cursor_ok in Hok.
  set (st := cells_loop row_init before) in *.
  assert (gap st cell = 0%nat) as ->.
  { unfold gap. unfold cell_index in Hidx.
    destruct (get (qname "Index") cell) as [idx|]; [|reflexivity]. simpl in Hidx.
    destruct (Py.int idx) as [n|]; [|reflexivity].
    specialize (Hidx n eq_refl). lia. }
  split; [|lia]. simpl.
  rewrite lookup_app_r by lia.
  by replace (length (values st) - length (values st))%nat with 0%nat by lia.
Qed.

Lemma cell_without_gap_lands_at_cursor_witness :
  parse_row Sample.row_back !! 3%nat = Some "A"%string.
Proof.
  pose proof (cell_without_gap_lands_at_cursor Sample.row_back
                (Sample.cell_at "1" "A") [Sample.cell_at "3" "C"] []) as H.
  destruct H as (H1 & _); [reflexivity | |exact H1].
  intros n Hn. vm_compute in Hn. injection Hn as <-.
  apply Z.leb_le. reflexivity.
Defined.

(** X3. The reconstructed row is at least as long as every column
    that an index of one of its cells names. *)
Theorem row_reaches_every_index (row cell : Element) (n : Z) :
  cell ∈ findall "Cell" row ->
  cell_index cell = Some n ->
  n <= Z.of_nat (length (parse_row row)).
Proof.
  intros Hin Hn.
  destruct (list_elem_of_split _ _ Hin) as (before & after & Hcells).
  destruct (parse_row_around row cell before after Hcells) as [rest ->].
  pose proof (cells_loop_init_ok before) as Hok. unfold cursor_ok in Hok.
  set (st := cells_loop row_init before) in *.
  unfold cell_index in Hn.
  destruct (get (qname "Index") cell) as [idx|] eqn:Hidx; [|discriminate].
  simpl in Hn. rewrite (gap_index st cell idx n Hidx Hn).
  rewrite !length_app, length_replicate. simpl. lia.
Qed.

Lemma row_reaches_every_index_witness :
  3 <= Z.of_nat (length (parse_row Sample.row_B)).
Proof.
  apply (row_reaches_every_index Sample.row_B (Sample.cell_at "3" "C") 3);
    [|reflexivity].
  vm_compute. apply list_elem_of_further, list_elem_of_here.
Defined.

(** ** What a reconstructed row is made of *)

(** Every entry of the row built from [cells] is an empty string or
    the text of one of the cells, at the column where that cell
    lands. *)
Lemma entry_origin (cells : list Element) (j : nat) (x : string) :
  values (cells_loop row_init cells) !! j = Some x ->
  x = ""%string
  \/ exists (before : list Element) (c : Element) (after : list Element),
       cells = before ++ c :: after
       /\ j = (length (values (cells_loop row_init before))
               + gap (cells_loop row_init before) c)%nat
       /\ x = get_cell_text c.
Proof.
  revert j x. induction cells as [|c cells IH] using rev_ind; intros j x Hj.
  - simpl in Hj. by rewrite lookup_nil in Hj.
  - rewrite cells_loop_app in Hj. simpl in Hj. rewrite cell_step_gap in Hj.
    simpl in Hj. set (st := cells_loop row_init cells) in *.
    destruct (decide (j < length (values st))%nat) as [Hlt | Hge].
    + rewrite lookup_app_l in Hj by exact Hlt.
      destruct (IH j x Hj) as [-> | (before & c' & after & -> & Hpos & ->)];
        [by left | right].
      exists before, c', (after ++ [c]).
      by rewrite <- (assoc_L (++)).
    + rewrite lookup_app_r in Hj by lia.
      destruct (decide (j - length (values st) < gap st c)%nat) as [Hgap | Hend].
      * rewrite lookup_app_l in Hj by (rewrite length_replicate; lia).
        apply lookup_replicate in Hj as [-> _]. by left.
      * rewrite lookup_app_r in Hj by (rewrite length_replicate; lia).
        rewrite length_replicate in Hj.
        destruct (j - length (values st) - gap st c)%nat as [|k] eqn:Hk;
          [|by rewrite lookup_cons, lookup_nil in Hj].
        simpl in Hj. injection Hj as <-. right.
        exists cells, c, []. subst st. repeat split. lia.
Qed.

(** What a run of the cell loop appends: the texts of the cells, in
    order, with empty strings in between. *)
Lemma cells_loop_added (st : RowState) (cells : list Element) :
  exists (added : list string) (k : nat),
    values (cells_loop st cells) = values st ++ added
    /\ map get_cell_text cells `sublist_of` added
    /\ added ≡ₚ map get_cell_text cells ++ replicate k ""%string.
Proof.
  revert st. induction cells as [|c cells IH]; intros st; simpl.
  - exists [], 0%nat. by rewrite (right_id_L [] (++)).
  - destruct (IH (cell_step st c)) as (added & k & Hval & Hsub & Hperm).
    exists (replicate (gap st c) ""%string ++ get_cell_text c :: added),
           (gap st c + k)%nat.
    split; [|split].
    + rewrite Hval, cell_step_gap. simpl. by rewrite <- !(assoc_L (++)).
    + apply sublist_inserts_l. by apply sublist_skip.
    + rewrite Hperm, replicate_add.
      rewrite (Permutation_app_comm (replicate (gap st c) _)).
      simpl. apply Permutation_skip.
      rewrite <- (assoc_L (++)). apply Permutation_app_head, Permutation_app_comm.
Qed.

(** X4. Reconstruction neither loses nor reorders nor invents text:
    the texts of the cells occur in the reconstructed row in source
    order, and the row consists of these texts and empty strings
    only. *)
Theorem row_is_texts_and_blanks (row : Element) :
  map get_cell_text (findall "Cell" row) `sublist_of` parse_row row
  /\ (exists k : nat,
        parse_row row
        ≡ₚ map get_cell_text (findall "Cell" row) ++ replicate k ""%string)
  /\ forall (j : nat) (x : string),
       parse_row row !! j = Some x ->
       x = ""%string
       \/ exists cell, cell ∈ findall "Cell" row /\ x = get_cell_text cell.
Proof.
  unfold parse_row, row_final.
  destruct (cells_loop_added row_init (findall "Cell" row))
    as (added & k & Hval & Hsub & Hperm).
  simpl in Hval. rewrite Hval. split; [exact Hsub|]. split; [by exists k|].
  intros j x Hj. rewrite <- Hval in Hj.
  destruct (entry_origin _ j x Hj) as [-> | (before & c & after & Hc & _ & ->)];
    [by left | right].
  exists c. split; [|reflexivity]. rewrite Hc. set_solver.
Qed.

(** ** Rows with increasing indices *)

Lemma gap_cell_index (st : RowState) (c : Element) (n : Z) :
  cell_index c = Some n -> gap st c = Z.to_nat (n - current_col st).
Proof.
  unfold cell_index. intros Hidx.
  destruct (get (qname "Index") c) as [idx|] eqn:Hget; [|discriminate].
  simpl in Hidx. exact (gap_index st c idx n Hget Hidx).
Qed.

Lemma cell_step_to_index (st : RowState) (c : Element) (n : Z) :
  cell_index c = Some n -> current_col st <= n ->
  current_col (cell_step st c) = n + 1.
Proof.
  intros Hidx Hle. rewrite cell_step_gap, (gap_cell_index st c n Hidx).
  simpl. lia.
Qed.

Section Increasing.

Variables (cells : list Element) (ns : list Z).
Hypothesis indexed : Forall2 (λ c n, cell_index c = Some n) cells ns.
Hypothesis positive : Forall (λ n, 1 <= n) ns.
Hypothesis increasing :
  forall (i : nat) (n m : Z), ns !! i = Some n -> ns !! S i = Some m -> n < m.

(** Before each cell the cursor has not passed the cell's column, and
    after it the cursor is on the next column. *)
Lemma cursor_follows_index (i : nat) (c : Element) (n : Z) :
  cells !! i = Some c -> ns !! i = Some n ->
  current_col (cells_loop row_init (take i cells)) <= n
  /\ current_col (cells_loop row_init (take (S i) cells)) = n + 1.
Proof.
  revert c n. induction i as [|i IH]; intros c n Hc Hn.
  - assert (current_col (cells_loop row_init (take 0 cells)) <= n) as Hle
      by exact (proj1 (Forall_lookup _ _) positive 0%nat n Hn).
    split; [exact Hle|].
    rewrite (take_S_r _ _ _ Hc), cells_loop_app. simpl.
    apply cell_step_to_index; [|exact Hle].
    exact (Forall2_lookup_lr _ _ _ _ _ _ indexed Hc Hn).
  - destruct (lookup_lt_is_Some_2 cells i) as [c' Hc'];
      [apply lookup_lt_Some in Hc; lia|].
    destruct (lookup_lt_is_Some_2 ns i) as [n' Hn'];
      [apply lookup_lt_Some in Hn; lia|].
    destruct (IH c' n' Hc' Hn') as [_ Hafter].
    pose proof (increasing i n' n Hn' Hn) as Hlt.
    assert (current_col (cells_loop row_init (take (S i) cells)) <= n) as Hle
      by lia.
    split; [exact Hle|].
    rewrite (take_S_r _ _ _ Hc), cells_loop_app. simpl.
    apply cell_step_to_index; [|exact Hle].
    exact (Forall2_lookup_lr _ _ _ _ _ _ indexed Hc Hn).
Qed.

End Increasing.

(** X5. A row in which every cell carries an index, the indices
    start at 1 or later and increase strictly from cell to cell, is
    reconstructed exactly: each cell's text is in the column its index
    names, every other column up to the last index is empty, and the
    row ends at the last index. *)
Theorem increasing_indices_give_dense_row (row : Element) (ns : list Z) :
  Forall2 (λ c n, cell_index c = Some n) (findall "Cell" row) ns ->
  Forall (λ n, 1 <= n) ns ->
  (forall (i : nat) (n m : Z),
     ns !! i = Some n -> ns !! S i = Some m -> n < m) ->
  (forall (i : nat) (c : Element) (n : Z),
     findall "Cell" row !! i = Some c -> ns !! i = Some n ->
     parse_row row !! Z.to_nat (n - 1) = Some (get_cell_text c))
  /\ (forall j : nat,
        (j < length (parse_row row))%nat -> Z.of_nat j + 1 ∉ ns ->
        parse_row row !! j = Some ""%string)
  /\ Z.of_nat (length (parse_row row)) = default 0 (last ns).
Proof.
  intros Hidx Hpos Hinc.
  pose proof (cursor_follows_index _ _ Hidx Hpos Hinc) as Hcur.
  assert (forall before c after n,
            findall "Cell" row = before ++ c :: after ->
            cell_index c = Some n ->
            current_col (cells_loop row_init before) <= n) as Hsplit.
  { intros before c after n Hcells Hn.
    assert (findall "Cell" row !! length before = Some c) as Hc
      by (rewrite Hcells; apply list_lookup_middle; reflexivity).
    destruct (Forall2_lookup_l _ _ _ _ _ Hidx Hc) as (n' & Hn' & Hcn').
    assert (n' = n) as -> by congruence.
    destruct (Hcur _ _ _ Hc Hn') as [Hle _].
    by rewrite Hcells, take_app_length in Hle. }
  split; [|split].
  - intros i c n Hc Hn.
    destruct (list_elem_of_split_length _ _ _ Hc) as (before & after & Hcells & _).
    pose proof (Forall2_lookup_lr _ _ _ _ _ _ Hidx Hc Hn) as Hcn.
    destruct (parse_row_around row c before after Hcells) as [rest ->].
    pose proof (cells_loop_init_ok before) as Hok. unfold cursor_ok in Hok.
    pose proof (Hsplit before c after n Hcells Hcn) as Hle.
    rewrite (gap_cell_index _ c n Hcn).
    replace (Z.to_nat (n - 1))
      with (length (values (cells_loop row_init before))
            + Z.to_nat (n - current_col (cells_loop row_init before)))%nat by lia.
    apply lookup_after_gap.
  - intros j Hj Hnot.
    destruct (lookup_lt_is_Some_2 _ _ Hj) as [x Hx]. rewrite Hx. f_equal.
    destruct (entry_origin _ j x Hx)
      as [-> | (before & c & after & Hcells & Hpos_j & ->)]; [reflexivity|].
    exfalso. apply Hnot.
    assert (findall "Cell" row !! length before = Some c) as Hc
      by (rewrite Hcells; apply list_lookup_middle; reflexivity).
    destruct (Forall2_lookup_l _ _ _ _ _ Hidx Hc) as (n & Hn & Hcn).
    pose proof (Hsplit before c after n Hcells Hcn) as Hle.
    pose proof (cells_loop_init_ok before) as Hok. unfold cursor_ok in Hok.
    rewrite (gap_cell_index _ c n Hcn) in Hpos_j.
    replace (Z.of_nat j + 1) with n by lia.
    by apply list_elem_of_lookup_2 in Hn.
  - pose proof (row_final_cursor_ok row) as Hok. unfold cursor_ok in Hok.
    fold (parse_row row) in Hok. rewrite Hok. unfold row_final.
    pose proof (Forall2_length _ _ _ Hidx) as Hlen.
    destruct (findall "Cell" row) as [|c0 cells] eqn:Hcells using rev_ind.
    + destruct ns; [reflexivity | discriminate].
    + clear IHcells. rewrite length_app in Hlen. simpl in Hlen.
      destruct ns as [|n ns _] using rev_ind; [simpl in Hlen; lia|].
      rewrite length_app in Hlen. simpl in Hlen.
      rewrite last_snoc. simpl.
      assert ((cells ++ [c0]) !! length cells = Some c0) as Hc
        by (apply list_lookup_middle; reflexivity).
      assert ((ns ++ [n]) !! length cells = Some n) as Hn
        by (apply list_lookup_middle; lia).
      destruct (Hcur _ _ _ Hc Hn) as [_ Hafter].
      rewrite take_ge in Hafter by (rewrite length_app; simpl; lia).
      lia.
Qed.

Lemma increasing_indices_give_dense_row_witness :
  parse_row Sample.row_B !! 2%nat = Some "C"%string
  /\ Z.of_nat (length (parse_row Sample.row_B)) = 3.
Proof.
  pose proof (increasing_indices_give_dense_row Sample.row_B [1; 3]) as H.
  destruct H as (H1 & _ & H3).
  - repeat constructor.
  - repeat constructor; lia.
  - intros [|[|i]] n m Hn Hm; simpl in *; simplify_eq; lia.
  - split; [|exact H3].
    exact (H1 1%nat (Sample.cell_at "3" "C") 3 eq_refl eq_refl).
Defined.

(** ** What the parser does not look at *)

Lemma cell_step_set_attrib (st : RowState) (cell : Element) (key value : string) :
  key ≠ qname "Index" ->
  cell_step st (set_attrib key value cell) = cell_step st cell.
Proof.
  intros Hkey. unfold cell_step, get, set_attrib, get_cell_text, find, findall.
  simpl. by rewrite lookup_insert_ne.
Qed.

Lemma cell_step_remove_attrib (st : RowState) (cell : Element) (key : string) :
  key ≠ qname "Index" ->
  cell_step st (remove_attrib key cell) = cell_step st cell.
Proof.
  intros Hkey. unfold cell_step, get, remove_attrib, get_cell_text, find, findall.
  simpl. by rewrite lookup_delete_ne.
Qed.

(** X6. Of the attributes of a cell only the namespaced [Index] is
    read: setting or deleting any other attribute of a cell changes
    nothing in the result of [parse_rows].  Attributes of a row are
    not read at all, an [Index] on the row included. *)
Theorem only_cell_index_is_read
    (table row cell : Element) (j i : nat) (key value : string) :
  children table !! j = Some row ->
  children row !! i = Some cell ->
  key ≠ qname "Index" ->
  parse_rows (set_child j (set_child i (set_attrib key value cell) row) table)
  = parse_rows table
  /\ parse_rows (set_child j (set_child i (remove_attrib key cell) row) table)
     = parse_rows table
  /\ parse_rows (set_child j (set_attrib (qname "Index") value row) table)
     = parse_rows table.
Proof.
  intros Hj Hi Hkey. split; [|split].
  - apply (parse_rows_set_child table row); [exact Hj | reflexivity |].
    apply (parse_row_set_child row cell); [exact Hi | reflexivity |].
    intros st. by apply cell_step_set_attrib.
  - apply (parse_rows_set_child table row); [exact Hj | reflexivity |].
    apply (parse_row_set_child row cell); [exact Hi | reflexivity |].
    intros st. by apply cell_step_remove_attrib.
  - by apply (parse_rows_set_child table row).
Qed.

Lemma only_cell_index_is_read_witness :
  parse_rows
    (set_child 0
       (set_child 1 (set_attrib "Index" "7" (Sample.cell "Age")) Sample.row_A)
       (Sample.table [Sample.row_A]))
  = [["Name"; "Age"]]%string.
Proof.
  pose proof (only_cell_index_is_read (Sample.table [Sample.row_A]) Sample.row_A
                (Sample.cell "Age") 0 1 "Index" "7") as H.
  destruct H as (H1 & _); [reflexivity | reflexivity | |].
  - intros Heq. vm_compute in Heq. discriminate Heq.
  - rewrite H1. reflexivity.
Defined.

Lemma findall_skip (local tg : string) (a : gmap string string)
    (t : option string) (pre post : list Element) (c : Element) :
  tag c ≠ qname local ->
  findall local (mkElement tg a t (pre ++ c :: post))
  = findall local (mkElement tg a t (pre ++ post)).
Proof.
  intros Htag. unfold findall. simpl.
  by rewrite !filter_app, filter_cons_False.
Qed.

(** X7. Children with other tags are passed over at every level: a
    child of the table that is not a [Row] (a [Column], say), a child
    of a row that is not a [Cell], and a child of a cell that is not a
    [Data], can be dropped without changing the result. *)
Theorem other_children_are_skipped
    (tg : string) (a : gmap string string) (t : option string)
    (pre post : list Element) (c : Element) :
  (tag c ≠ qname "Row" ->
   parse_rows (mkElement tg a t (pre ++ c :: post))
   = parse_rows (mkElement tg a t (pre ++ post)))
  /\ (tag c ≠ qname "Cell" ->
      parse_row (mkElement tg a t (pre ++ c :: post))
      = parse_row (mkElement tg a t (pre ++ post)))
  /\ (tag c ≠ qname "Data" ->
      get_cell_text (mkElement tg a t (pre ++ c :: post))
      = get_cell_text (mkElement tg a t (pre ++ post))).
Proof.
  split; [|split]; intros Htag.
  - unfold parse_rows. by rewrite findall_skip.
  - unfold parse_row, row_final. by rewrite findall_skip.
  - unfold get_cell_text, find. by rewrite findall_skip.
Qed.

Lemma other_children_are_skipped_witness :
  parse_rows
    (mkElement (qname "Table") ∅ None
       ([] ++ mkElement (qname "Column") ∅ None [] :: [Sample.row_A]))
  = [["Name"; "Age"]]%string.
Proof.
  pose proof (other_children_are_skipped (qname "Table") ∅ None []
                [Sample.row_A] (mkElement (qname "Column") ∅ None [])) as (H & _).
  rewrite H; [reflexivity|].
  intros Heq. vm_compute in Heq. discriminate Heq.
Defined.

(** ** The text of a cell *)

Lemma append_cons (c : ascii) (a b : string) :
  String.append (String c a) b = String c (String.append a b).
Proof. reflexivity. Qed.

Lemma append_empty_l (b : string) : String.append EmptyString b = b.
Proof. reflexivity. Qed.

Lemma lstrip_first (p : ascii -> bool) (s : string) (c : ascii) :
  first_char (Py.lstrip_with p s) = Some c -> p c = false.
Proof.
  induction s as [|c0 s IH]; simpl; [discriminate|].
  destruct (p c0) eqn:Hp; [exact IH|].
  simpl. intros [= <-]. exact Hp.
Qed.

Lemma lstrip_split (p : ascii -> bool) (s : string) :
  exists l : string,
    s = String.append l (Py.lstrip_with p s) /\ all_chars p l = true.
Proof.
  induction s as [|c0 s (l & Hl & Hall)]; simpl.
  - by exists EmptyString.
  - destruct (p c0) eqn:Hp.
    + exists (String c0 l). split; [rewrite append_cons; f_equal; exact Hl|].
      simpl. by rewrite Hp, Hall.
    + by exists EmptyString.
Qed.

Lemma rstrip_last (p : ascii -> bool) (s : string) (c : ascii) :
  last_char (Py.rstrip_with p s) = Some c -> p c = false.
Proof.
  induction s as [|c0 s IH]; simpl; [discriminate|].
  destruct (Py.rstrip_with p s) as [|c1 r] eqn:Hr.
  - simpl. destruct (p c0) eqn:Hp; simpl; [discriminate|].
    intros [= <-]. exact Hp.
  - rewrite andb_false_r. exact IH.
Qed.

Lemma rstrip_split (p : ascii -> bool) (s : string) :
  exists r : string,
    s = String.append (Py.rstrip_with p s) r /\ all_chars p r = true.
Proof.
  induction s as [|c0 s (r & Hr & Hall)]; simpl.
  - by exists EmptyString.
  - destruct (Py.rstrip_with p s) as [|c1 r'] eqn:Hstrip.
    + rewrite append_empty_l in Hr. subst r. destruct (p c0) eqn:Hp; simpl.
      * exists (String c0 s). rewrite append_empty_l. simpl. by rewrite Hp, Hall.
      * exists s. rewrite append_cons, append_empty_l. by split.
    + rewrite andb_false_r. exists r. split; [|exact Hall].
      rewrite append_cons. f_equal. exact Hr.
Qed.

Lemma rstrip_first (p : ascii -> bool) (s : string) (c : ascii) :
  first_char s = Some c -> p c = false ->
  first_char (Py.rstrip_with p s) = Some c.
Proof.
  destruct s as [|c0 s]; simpl; [discriminate|].
  intros [= ->] Hp. by rewrite Hp.
Qed.

Lemma strip_with_trimmed (p : ascii -> bool) (s : string) :
  trimmed p (Py.strip_with p s).
Proof.
  unfold Py.strip_with. split; [|apply rstrip_last].
  intros c Hc.
  destruct (Py.lstrip_with p s) as [|c0 s'] eqn:Hl; [discriminate|].
  assert (p c0 = false) as Hp0 by (apply (lstrip_first p s); by rewrite Hl).
  rewrite (rstrip_first p (String c0 s') c0 eq_refl Hp0) in Hc.
  by injection Hc as <-.
Qed.

Lemma strip_with_split (p : ascii -> bool) (s : string) :
  exists l r : string,
    s = String.append l (String.append (Py.strip_with p s) r)
    /\ all_chars p l = true /\ all_chars p r = true.
Proof.
  unfold Py.strip_with.
  destruct (lstrip_split p s) as (l & Hl & Hall_l).
  destruct (rstrip_split p (Py.lstrip_with p s)) as (r & Hr & Hall_r).
  exists l, r. split; [|by split]. by rewrite <- Hr.
Qed.

(** X8. The text of a cell carries no white space at either end, and
    it is the text of the [Data] child with nothing but white space
    taken off the two ends: the inside of the text is kept as it
    is. *)
Theorem cell_text_is_data_text_trimmed (cell data : Element) (t : string) :
  find "Data" cell = Some data ->
  text data = Some t ->
  trimmed Py.is_str_space (get_cell_text cell)
  /\ exists l r : string,
       t = String.append l (String.append (get_cell_text cell) r)
       /\ all_chars Py.is_str_space l = true
       /\ all_chars Py.is_str_space r = true.
Proof.
  intros Hdata Htext. unfold get_cell_text. rewrite Hdata, Htext. split.
  - apply strip_with_trimmed.
  - apply strip_with_split.
Qed.

Lemma cell_text_is_data_text_trimmed_witness :
  trimmed Py.is_str_space (get_cell_text (Sample.cell "  a b "))
  /\ get_cell_text (Sample.cell "  a b ") = "a b"%string.
Proof.
  pose proof (cell_text_is_data_text_trimmed (Sample.cell "  a b ")
                (Sample.data "  a b ") "  a b " eq_refl eq_refl) as (H & _).
  split; [exact H | reflexivity].
Defined.

(** X9. Only the first [Data] child of a cell gives its text; what
    stands before it under another tag and whatever follows it,
    further [Data] children included, is not read.  When that child
    has no text the cell's text is empty. *)
Theorem cell_text_is_first_data
    (cell data : Element) (before after : list Element) :
  children cell = before ++ data :: after ->
  Forall (λ x, tag x ≠ qname "Data") before ->
  tag data = qname "Data" ->
  get_cell_text cell = from_option Py.strip ""%string (text data).
Proof.
  intros Hch Hbefore Htag. unfold get_cell_text.
  rewrite (find_first "Data" cell data before after Hch Hbefore Htag).
  by destruct (text data).
Qed.

Lemma cell_text_is_first_data_witness :
  get_cell_text
    (mkElement (qname "Cell") ∅ None [Sample.data " one "; Sample.data "two"])
  = "one"%string.
Proof.
  rewrite (cell_text_is_first_data
             (mkElement (qname "Cell") ∅ None [Sample.data " one "; Sample.data "two"])
             (Sample.data " one ") [] [Sample.data "two"]);
    [reflexivity | reflexivity | constructor | reflexivity].
Defined.

(** ** The path typed by the user *)

Lemma lstrip_all (p : ascii -> bool) (l s : string) :
  all_chars p l = true ->
  Py.lstrip_with p (String.append l s) = Py.lstrip_with p s.
Proof.
  induction l as [|c l IH]; [reflexivity|].
  intros Hall. simpl in Hall. apply andb_true_iff in Hall as [Hc Hl].
  rewrite append_cons. simpl. rewrite Hc. by apply IH.
Qed.

Lemma lstrip_id (p : ascii -> bool) (s : string) :
  (forall c, first_char s = Some c -> p c = false) -> Py.lstrip_with p s = s.
Proof.
  destruct s as [|c s]; [reflexivity|]. simpl. intros H.
  by rewrite (H c eq_refl).
Qed.

Lemma rstrip_all_empty (p : ascii -> bool) (r : string) :
  all_chars p r = true -> Py.rstrip_with p r = EmptyString.
Proof.
  induction r as [|c r IH]; [reflexivity|].
  simpl. intros [Hc Hr]%andb_true_iff. by rewrite (IH Hr), Hc.
Qed.

Lemma rstrip_all (p : ascii -> bool) (s r : string) :
  all_chars p r = true ->
  Py.rstrip_with p (String.append s r) = Py.rstrip_with p s.
Proof.
  intros Hr. induction s as [|c s IH].
  - rewrite append_empty_l. by apply rstrip_all_empty.
  - rewrite append_cons. simpl. by rewrite IH.
Qed.

Lemma rstrip_id (p : ascii -> bool) (s : string) :
  (forall c, last_char s = Some c -> p c = false) -> Py.rstrip_with p s = s.
Proof.
  induction s as [|c s IH]; [reflexivity|]. intros Hlast.
  destruct s as [|c1 s].
  - simpl. by rewrite (Hlast c eq_refl).
  - change (Py.rstrip_with p (String c (String c1 s)))
      with (let r := Py.rstrip_with p (String c1 s) in
            if p c && Py.is_empty r then EmptyString else String c r).
    rewrite IH by exact Hlast. simpl. by rewrite andb_false_r.
Qed.

(** Stripping takes off a wrapping made of the stripped class and
    nothing more. *)
Lemma strip_with_wrap (p : ascii -> bool) (l s r : string) :
  all_chars p l = true -> all_chars p r = true -> trimmed p s ->
  Py.strip_with p (String.append l (String.append s r)) = s.
Proof.
  intros Hl Hr [Hfirst Hlast]. unfold Py.strip_with.
  rewrite (lstrip_all p l _ Hl).
  destruct s as [|c s].
  - rewrite append_empty_l.
    destruct (lstrip_split p r) as (l' & Hsplit & _).
    destruct (rstrip_split p (Py.lstrip_with p r)) as (r' & Hsplit' & Hall').
    assert (all_chars p (Py.lstrip_with p r) = true) as Hrest.
    { clear -Hr. induction r as [|c r IH]; [reflexivity|].
      simpl in *. apply andb_true_iff in Hr as [Hc Hr]. rewrite Hc. by apply IH. }
    by apply rstrip_all_empty.
  - rewrite lstrip_id.
    + rewrite (rstrip_all p _ r Hr). by apply rstrip_id.
    + rewrite append_cons. simpl. intros c' [= <-]. by apply Hfirst.
Qed.

Lemma last_char_cons (c : ascii) (s : string) :
  exists x : ascii, last_char (String c s) = Some x.
Proof.
  revert c. induction s as [|c1 s IH]; intros c; [by exists c|].
  destruct (IH c1) as [x Hx]. exists x. exact Hx.
Qed.

Lemma last_char_app (a b : string) :
  last_char (String.append a b)
  = match last_char b with Some c => Some c | None => last_char a end.
Proof.
  induction a as [|c a IH].
  - rewrite append_empty_l. by destruct (last_char b).
  - rewrite append_cons.
    change (last_char (String c (String.append a b)))
      with (match String.append a b with
            | EmptyString => Some c
            | String _ _ => last_char (String.append a b)
            end).
    destruct a as [|c1 a].
    + rewrite append_empty_l in *. destruct b as [|c2 b]; [reflexivity|].
      destruct (last_char_cons c2 b) as [x ->]. reflexivity.
    + rewrite append_cons in *. rewrite IH.
      by destruct (last_char b).
Qed.

Lemma all_chars_first (q : ascii -> bool) (s : string) (c : ascii) :
  all_chars q s = true -> first_char s = Some c -> q c = true.
Proof.
  destruct s as [|c0 s]; simpl; [discriminate|].
  intros [Hc _]%andb_true_iff [= <-]. exact Hc.
Qed.

Lemma all_chars_last (q : ascii -> bool) (s : string) (c : ascii) :
  all_chars q s = true -> last_char s = Some c -> q c = true.
Proof.
  induction s as [|c0 s IH]; [discriminate|].
  simpl. intros [Hc Hs]%andb_true_iff.
  destruct s as [|c1 s]; [by intros [= <-]|]. by apply IH.
Qed.

(** A string trimmed for the class [p] stays so inside a wrapping
    made of characters outside [p]. *)
Lemma trimmed_wrap (p q : ascii -> bool) (a s b : string) :
  (forall c, q c = true -> p c = false) ->
  all_chars q a = true -> all_chars q b = true -> trimmed p s ->
  trimmed p (String.append a (String.append s b)).
Proof.
  intros Hqp Ha Hb [Hfirst Hlast]. split; intros c Hc.
  - destruct a as [|c0 a].
    + rewrite append_empty_l in Hc. destruct s as [|c1 s].
      * rewrite append_empty_l in Hc. apply Hqp, (all_chars_first q b c Hb Hc).
      * rewrite append_cons in Hc. by apply Hfirst.
    + rewrite append_cons in Hc. simpl in Hc. injection Hc as <-.
      by apply Hqp, (all_chars_first q (String c0 a) c0 Ha).
  - rewrite !last_char_app in Hc.
    destruct (last_char b) as [cb|] eqn:Hlb.
    + injection Hc as <-. by apply Hqp, (all_chars_last q b cb Hb).
    + destruct (last_char s) as [cs|] eqn:Hls.
      * injection Hc as <-. by apply Hlast.
      * by apply Hqp, (all_chars_last q a c Ha).
Qed.

(** X10. A path typed with white space around it, inside double
    quotes, inside single quotes, or with single quotes inside double
    quotes, reaches the file tests without the wrapping, provided the
    path itself neither starts nor ends with a white space or a quote
    character. *)
Theorem typed_path_is_unwrapped
    (w : World) (lead trail d1 d2 s1 s2 path : string) :
  stdin_line w
  = String.append lead
      (String.append
         (String.append d1
            (String.append (String.append s1 (String.append path s2)) d2))
         trail) ->
  all_chars Py.is_str_space lead = true ->
  all_chars Py.is_str_space trail = true ->
  all_chars (Ascii.eqb (ascii_of_nat 34)) d1 = true ->
  all_chars (Ascii.eqb (ascii_of_nat 34)) d2 = true ->
  all_chars (Ascii.eqb "'") s1 = true ->
  all_chars (Ascii.eqb "'") s2 = true ->
  trimmed Py.is_str_space path ->
  trimmed (Ascii.eqb (ascii_of_nat 34)) path ->
  trimmed (Ascii.eqb "'") path ->
  xml_path_str w = path.
Proof.
  intros Hin Hlead Htrail Hd1 Hd2 Hs1 Hs2 Hws Hdq Hsq.
  unfold xml_path_str, Py.strip, Py.strip_char. rewrite Hin.
  assert (forall c, Ascii.eqb "'" c = true -> Py.is_str_space c = false) as Hsq_ws
    by (intros c <-%Ascii.eqb_eq; reflexivity).
  assert (forall c, Ascii.eqb (ascii_of_nat 34) c = true
                    -> Py.is_str_space c = false) as Hdq_ws
    by (intros c <-%Ascii.eqb_eq; reflexivity).
  assert (forall c, Ascii.eqb "'" c = true
                    -> Ascii.eqb (ascii_of_nat 34) c = false) as Hsq_dq
    by (intros c <-%Ascii.eqb_eq; reflexivity).
  rewrite strip_with_wrap; [| exact Hlead | exact Htrail |].
  - rewrite strip_with_wrap; [| exact Hd1 | exact Hd2 |].
    + by apply strip_with_wrap.
    + by apply (trimmed_wrap _ (Ascii.eqb "'")).
  - apply (trimmed_wrap _ (Ascii.eqb (ascii_of_nat 34))); try done.
    by apply (trimmed_wrap _ (Ascii.eqb "'")).
Qed.

Lemma typed_path_is_unwrapped_witness :
  xml_path_str (mkWorld "  'book 1.xml'  " (λ _, true) (λ _, true)
                        (λ _, inl ""%string) "")
  = "book 1.xml"%string.
Proof.
  apply (typed_path_is_unwrapped _ "  " "  " "" "" "'" "'" "book 1.xml");
    first [reflexivity | split; intros c [= <-]; reflexivity].
Defined.

(** ** Entries of a normalised row *)

Lemma normalize_row_lookup (header_len : nat) (r : list string) (i : nat) :
  normalize_row header_len r !! i
  = if decide (i < header_len)%nat
    then Some (default ""%string (r !! i))
    else None.
Proof.
  unfold normalize_row.
  destruct (Nat.ltb_spec (length r) header_len) as [Hshort | Hlong].
  - destruct (decide (i < header_len)%nat) as [Hi | Hi].
    + destruct (decide (i < length r)%nat) as [Hin | Hout].
      * rewrite lookup_app_l by exact Hin.
        destruct (lookup_lt_is_Some_2 r i Hin) as [x ->]. reflexivity.
      * rewrite lookup_app_r by lia.
        rewrite (lookup_ge_None_2 r i) by lia. simpl.
        apply lookup_replicate_2. lia.
    + apply lookup_ge_None_2. rewrite length_app, length_replicate. lia.
  - destruct (Nat.ltb_spec header_len (length r)) as [Hgt | Heq].
    + destruct (decide (i < header_len)%nat) as [Hi | Hi].
      * rewrite lookup_take_lt by exact Hi.
        destruct (lookup_lt_is_Some_2 r i) as [x ->]; [lia | reflexivity].
      * apply lookup_ge_None_2. rewrite length_take. lia.
    + destruct (decide (i < header_len)%nat) as [Hi | Hi].
      * destruct (lookup_lt_is_Some_2 r i) as [x ->]; [lia | reflexivity].
      * apply lookup_ge_None_2. lia.
Qed.

(** X11. Normalising a data row keeps every entry that lies within
    the header width where it is, fills the columns the row does not
    reach with empty strings, and drops what lies beyond the
    width. *)
Theorem normalize_row_entries (header_len : nat) (r : list string) (i : nat) :
  (forall x, (i < header_len)%nat -> r !! i = Some x ->
             normalize_row header_len r !! i = Some x)
  /\ ((length r <= i < header_len)%nat ->
      normalize_row header_len r !! i = Some ""%string)
  /\ ((header_len <= i)%nat -> normalize_row header_len r !! i = None).
Proof.
  rewrite normalize_row_lookup. split; [|split].
  - intros x Hi Hx. rewrite decide_True by exact Hi. by rewrite Hx.
  - intros [Hlen Hi]. rewrite decide_True by exact Hi.
    by rewrite (lookup_ge_None_2 r i Hlen).
  - intros Hi. rewrite decide_False by lia. reflexivity.
Qed.

Lemma normalize_row_entries_witness :
  normalize_row 2 ["a"; "b"; "c"]%string !! 1%nat = Some "b"%string
  /\ normalize_row 3 ["a"]%string !! 2%nat = Some ""%string
  /\ normalize_row 2 ["a"; "b"; "c"]%string !! 2%nat = None.
Proof.
  split; [|split].
  - pose proof (normalize_row_entries 2 ["a"; "b"; "c"]%string 1) as (H & _).
    apply H; [lia | reflexivity].
  - pose proof (normalize_row_entries 3 ["a"]%string 2) as (_ & H & _).
    apply H. simpl. lia.
  - pose proof (normalize_row_entries 2 ["a"; "b"; "c"]%string 2) as (_ & _ & H).
    apply H. lia.
Defined.

(** * Further properties of the run *)

(** The run on a table with at least one row: the first row is written
    as it is, the others normalised to its length. *)
Lemma main_table_rows (w : World) (table r0 : Element) (rs : list Element) :
  findall "Row" table = r0 :: rs ->
  main_table w table
  = ([WriteCsv (cwd w) "output.csv"
        (parse_row r0
           :: map (λ r, normalize_row (length (parse_row r0)) (parse_row r)) rs);
      PrintDone (length rs) (cwd w) "output.csv"], 0).
Proof.
  intros Hrows. unfold main_table. rewrite parse_rows_map, Hrows. simpl.
  rewrite normalize_map, length_map, length_map.
  by rewrite <- list_fmap_compose.
Qed.

Lemma main_table_no_rows (w : World) (table : Element) :
  findall "Row" table = [] -> main_table w table = ([PrintErr NoRows], 2).
Proof. intros Hrows. unfold main_table. by rewrite parse_rows_map, Hrows. Qed.

(** X14. Each diagnostic is printed for its own cause only, and the
    checks are made in order: the file, the parse, the first
    worksheet, its first table, the rows of that table.  So a first
    worksheet without a table is an error even if a later worksheet
    has one. *)
Theorem diagnostic_names_its_cause (w : World) (d : Diagnostic) :
  main w = ([PrintErr d], 2) ->
  match d with
  | FileNotFound p =>
      p = mkPath (xml_path_str w)
      /\ (path_exists w (xml_path_str w) = false
          \/ path_is_file w (xml_path_str w) = false)
  | XmlParseFailed e =>
      path_exists w (xml_path_str w) = true
      /\ path_is_file w (xml_path_str w) = true
      /\ et_parse w (xml_path_str w) = inl e
  | NoWorksheet =>
      exists root : Element,
        et_parse w (xml_path_str w) = inr root
        /\ findall "Worksheet" root = []
  | NoTable =>
      exists root worksheet : Element,
        et_parse w (xml_path_str w) = inr root
        /\ find "Worksheet" root = Some worksheet
        /\ findall "Table" worksheet = []
  | NoRows =>
      exists root worksheet table : Element,
        et_parse w (xml_path_str w) = inr root
        /\ find "Worksheet" root = Some worksheet
        /\ find "Table" worksheet = Some table
        /\ findall "Row" table = []
  end.
Proof.
  unfold main.
  destruct (path_exists w (xml_path_str w)) eqn:Hex; simpl.
  2: { intros [= <-]. split; [reflexivity | by left]. }
  destruct (path_is_file w (xml_path_str w)) eqn:Hfile; simpl.
  2: { intros [= <-]. split; [reflexivity | by right]. }
  destruct (et_parse w (xml_path_str w)) as [e | root] eqn:Hparse.
  { intros [= <-]. by repeat split. }
  unfold find at 1.
  destruct (findall "Worksheet" root) as [|ws wss] eqn:Hws; simpl.
  { intros [= <-]. by exists root. }
  unfold find at 1.
  destruct (findall "Table" ws) as [|table tables] eqn:Htab; simpl.
  { intros [= <-]. exists root, ws. unfold find. by rewrite Hws. }
  destruct (findall "Row" table) as [|r0 rs] eqn:Hrows.
  - rewrite main_table_no_rows by exact Hrows. intros [= <-].
    exists root, ws, table. unfold find. by rewrite Hws, Htab.
  - rewrite (main_table_rows w table r0 rs Hrows). discriminate.
Qed.

Lemma diagnostic_names_its_cause_witness :
  exists root worksheet : Element,
    et_parse
      (Sample.world
         (Sample.workbook
            [Sample.worksheet []; Sample.worksheet [Sample.table [Sample.row_A]]]))
      "book.xml"
    = inr root
    /\ find "Worksheet" root = Some worksheet
    /\ findall "Table" worksheet = [].
Proof.
  exact (diagnostic_names_its_cause
           (Sample.world
              (Sample.workbook
                 [Sample.worksheet [];
                  Sample.worksheet [Sample.table [Sample.row_A]]]))
           NoTable eq_refl).
Defined.

(** ** What is written *)

Lemma parse_row_plain (row : Element) :
  Forall (λ c, get (qname "Index") c = None) (findall "Cell" row) ->
  parse_row row = map get_cell_text (findall "Cell" row).
Proof.
  intros Hall. unfold parse_row, row_final. by rewrite cells_loop_plain.
Qed.

(** X15. Every file a run writes is rectangular: all the rows handed
    to the CSV writer have the length of the first, the header
    row. *)
Theorem csv_is_rectangular (w : World) (rows : list (list string)) :
  written_rows (main w) = Some rows ->
  exists (headers : list string) (data : list (list string)),
    rows = headers :: data
    /\ Forall (λ r, length r = length headers) data.
Proof.
  unfold main.
  destruct (negb (path_exists w (xml_path_str w))
            || negb (path_is_file w (xml_path_str w))); [discriminate|].
  destruct (et_parse w (xml_path_str w)) as [e | root]; [discriminate|].
  destruct (find "Worksheet" root) as [ws|]; [|discriminate].
  destruct (find "Table" ws) as [table|]; [|discriminate].
  destruct (findall "Row" table) as [|r0 rs] eqn:Hrows.
  - rewrite main_table_no_rows by exact Hrows. discriminate.
  - rewrite (main_table_rows w table r0 rs Hrows). intros [= <-].
    eexists _, _. split; [reflexivity|].
    apply Forall_fmap, Forall_forall. intros r _. apply normalize_row_length.
Qed.

Lemma csv_is_rectangular_witness :
  exists (headers : list string) (data : list (list string)),
    [["Name"; "Age"]; ["A"; ""]]%string = headers :: data
    /\ Forall (λ r, length r = length headers) data.
Proof.
  exact (csv_is_rectangular (Sample.world Sample.book_two) _ eq_refl).
Defined.

(** X16. One row is written for every [Row] child of the table, in
    document order and without skipping rows that have no cells: the
    first reconstructed as it is, each later one reconstructed and
    then normalised to the length of the first.  The count reported is
    the number of [Row] children less one. *)
Theorem csv_has_a_row_per_row_element
    (w : World) (root worksheet table r0 : Element) (rs : list Element) :
  path_exists w (xml_path_str w) = true ->
  path_is_file w (xml_path_str w) = true ->
  et_parse w (xml_path_str w) = inr root ->
  find "Worksheet" root = Some worksheet ->
  find "Table" worksheet = Some table ->
  findall "Row" table = r0 :: rs ->
  main w
  = ([WriteCsv (cwd w) "output.csv"
        (parse_row r0
           :: map (λ r, normalize_row (length (parse_row r0)) (parse_row r)) rs);
      PrintDone (length rs) (cwd w) "output.csv"], 0)
  /\ (forall rows, written_rows (main w) = Some rows ->
                   length rows = length (findall "Row" table)).
Proof.
  intros Hex Hfile Hparse Hws Htab Hrows.
  rewrite (main_reaches_table w root worksheet table) by assumption.
  rewrite (main_table_rows w table r0 rs Hrows). split; [reflexivity|].
  intros rows [= <-]. rewrite Hrows. simpl. by rewrite length_map.
Qed.

Lemma csv_has_a_row_per_row_element_witness :
  main (Sample.world (Sample.workbook
          [Sample.worksheet [Sample.table [Sample.row_A; Sample.row []; Sample.row_B]]]))
  = ([WriteCsv "/tmp" "output.csv"
        [["Name"; "Age"]; [""; ""]; ["A"; ""]]%string;
      PrintDone 2 "/tmp" "output.csv"], 0).
Proof.
  pose proof (csv_has_a_row_per_row_element
                (Sample.world (Sample.workbook
                   [Sample.worksheet
                      [Sample.table [Sample.row_A; Sample.row []; Sample.row_B]]]))
                _ _ _ Sample.row_A [Sample.row []; Sample.row_B]
                eq_refl eq_refl eq_refl eq_refl eq_refl eq_refl) as (H & _).
  rewrite H. reflexivity.
Defined.

(** X17. A table that is already dense comes out unchanged: when no
    cell carries an index and every row has as many cells as the
    first, the rows written are the texts of the cells, row by row. *)
Theorem dense_table_is_copied
    (w : World) (root worksheet table r0 : Element) (rs : list Element) :
  path_exists w (xml_path_str w) = true ->
  path_is_file w (xml_path_str w) = true ->
  et_parse w (xml_path_str w) = inr root ->
  find "Worksheet" root = Some worksheet ->
  find "Table" worksheet = Some table ->
  findall "Row" table = r0 :: rs ->
  Forall (λ r, Forall (λ c, get (qname "Index") c = None) (findall "Cell" r)
               /\ length (findall "Cell" r) = length (findall "Cell" r0))
         (r0 :: rs) ->
  written_rows (main w)
  = Some (map (λ r, map get_cell_text (findall "Cell" r)) (r0 :: rs)).
Proof.
  intros Hex Hfile Hparse Hws Htab Hrows Hdense.
  rewrite (main_reaches_table w root worksheet table) by assumption.
  rewrite (main_table_rows w table r0 rs Hrows).
  unfold written_rows. simpl.
  apply Forall_cons in Hdense as [[Hno0 _] Hrest].
  rewrite (parse_row_plain r0 Hno0). do 2 f_equal.
  apply list_fmap_ext. intros i r Hr.
  destruct (proj1 (Forall_lookup _ _) Hrest i r Hr) as [Hno Hlen].
  rewrite (parse_row_plain r Hno).
  apply normalize_row_fixed. rewrite !length_map. exact Hlen.
Qed.

(** X18. The header row alone fixes the width.  When the first row has
    no cells, every data row is written empty, whatever it holds. *)
Theorem empty_header_empties_the_table
    (w : World) (root worksheet table r0 : Element) (rs : list Element) :
  path_exists w (xml_path_str w) = true ->
  path_is_file w (xml_path_str w) = true ->
  et_parse w (xml_path_str w) = inr root ->
  find "Worksheet" root = Some worksheet ->
  find "Table" worksheet = Some table ->
  findall "Row" table = r0 :: rs ->
  findall "Cell" r0 = [] ->
  written_rows (main w) = Some ([] :: replicate (length rs) []).
Proof.
  intros Hex Hfile Hparse Hws Htab Hrows Hcells.
  rewrite (main_reaches_table w root worksheet table) by assumption.
  rewrite (main_table_rows w table r0 rs Hrows).
  unfold written_rows. simpl.
  assert (parse_row r0 = []) as ->
    by (unfold parse_row, row_final; by rewrite Hcells).
  do 2 f_equal. simpl. clear.
  induction rs as [|r rs IH]; [reflexivity|]. simpl. rewrite IH. f_equal.
  apply nil_length_inv, normalize_row_length.
Qed.

Lemma empty_header_empties_the_table_witness :
  written_rows
    (main (Sample.world (Sample.workbook
             [Sample.worksheet [Sample.table [Sample.row []; Sample.row_A]]])))
  = Some [[]; []].
Proof.
  exact (empty_header_empties_the_table
           (Sample.world (Sample.workbook
              [Sample.worksheet [Sample.table [Sample.row []; Sample.row_A]]]))
           _ _ _ (Sample.row []) [Sample.row_A]
           eq_refl eq_refl eq_refl eq_refl eq_refl eq_refl eq_refl).
Defined.

Lemma dense_table_is_copied_witness :
  written_rows
    (main (Sample.world (Sample.workbook
             [Sample.worksheet
                [Sample.table
                   [Sample.row_A; Sample.row [Sample.cell "x"; Sample.cell "y"]]]])))
  = Some [["Name"; "Age"]; ["x"; "y"]]%string.
Proof.
  apply (dense_table_is_copied
           (Sample.world (Sample.workbook
              [Sample.worksheet
                 [Sample.table
                    [Sample.row_A; Sample.row [Sample.cell "x"; Sample.cell "y"]]]]))
           _ _ _ Sample.row_A [Sample.row [Sample.cell "x"; Sample.cell "y"]]
           eq_refl eq_refl eq_refl eq_refl eq_refl eq_refl).
  repeat constructor.
Defined.

(** X19. From the document to the file: a cell of a data row whose
    index parses to a column at or beyond the cursor is written in
    that column of its row when the column lies within the header
    width, and is not written at all when it lies beyond. *)
Theorem indexed_data_cell_in_csv
    (w : World) (root worksheet table r0 r cell : Element)
    (rs before after : list Element) (k : nat) (idx : string) (n : Z) :
  path_exists w (xml_path_str w) = true ->
  path_is_file w (xml_path_str w) = true ->
  et_parse w (xml_path_str w) = inr root ->
  find "Worksheet" root = Some worksheet ->
  find "Table" worksheet = Some table ->
  findall "Row" table = r0 :: rs ->
  rs !! k = Some r ->
  findall "Cell" r = before ++ cell :: after ->
  get (qname "Index") cell = Some idx ->
  Py.int idx = Some n ->
  current_col (cells_loop row_init before) <= n ->
  exists (rows : list (list string)) (out : list string),
    written_rows (main w) = Some rows
    /\ rows !! S k = Some out
    /\ out !! Z.to_nat (n - 1)
       = if decide (n <= Z.of_nat (length (parse_row r0)))
         then Some (get_cell_text cell)
         else None.
Proof.
  intros Hex Hfile Hparse Hws Htab Hrows Hr Hcells Hidx Hn Hle.
  rewrite (main_reaches_table w root worksheet table) by assumption.
  rewrite (main_table_rows w table r0 rs Hrows).
  eexists _, _. split; [reflexivity|]. split.
  { simpl. rewrite list_lookup_fmap, Hr. reflexivity. }
  rewrite normalize_row_lookup.
  pose proof (cells_loop_init_ok before) as Hok. unfold cursor_ok in Hok.
  assert (1 <= n) as Hpos.
  { pose proof (cells_loop_cursor_le row_init before) as Hmono.
    simpl in Hmono. lia. }
  assert (parse_row r !! Z.to_nat (n - 1) = Some (get_cell_text cell)) as Hcell.
  { destruct (parse_row_around r cell before after Hcells) as [rest ->].
    rewrite (gap_index _ cell idx n Hidx Hn).
    replace (Z.to_nat (n - 1))
      with (length (values (cells_loop row_init before))
            + Z.to_nat (n - current_col (cells_loop row_init before)))%nat by lia.
    apply lookup_after_gap. }
  rewrite Hcell. simpl.
  destruct (decide (n <= Z.of_nat (length (parse_row r0)))) as [Hin | Hout].
  - rewrite decide_True by lia. reflexivity.
  - rewrite decide_False by lia. reflexivity.
Qed.

Lemma indexed_data_cell_in_csv_witness :
  exists (rows : list (list string)) (out : list string),
    written_rows (main (Sample.world Sample.book_two)) = Some rows
    /\ rows !! 1%nat = Some out
    /\ out !! 2%nat = None.
Proof.
  exact (indexed_data_cell_in_csv
           (Sample.world Sample.book_two) _ _ _ Sample.row_A Sample.row_B
           (Sample.cell_at "3" "C") [Sample.row_B] [Sample.cell_at "1" "A"] []
           0 "3" 3
           eq_refl eq_refl eq_refl eq_refl eq_refl eq_refl eq_refl eq_refl
           eq_refl eq_refl (proj1 (Z.leb_le 2 3) eq_refl)).
Defined.

(** X20. Rows do not influence one another: the cursor restarts at
    column 1 for every row, so the result for a table is the result
    for its first children followed by the result for the rest. *)
Theorem rows_are_independent
    (tg : string) (a : gmap string string) (t : option string)
    (first rest : list Element) :
  parse_rows (mkElement tg a t (first ++ rest))
  = parse_rows (mkElement tg a t first) ++ parse_rows (mkElement tg a t rest).
Proof.
  rewrite !parse_rows_map. unfold findall. simpl.
  by rewrite filter_app, map_app.
Qed.

(** * The parser with its exceptions *)

















(** * The run with its exceptions *)




(** From the table on, a run ends in one of three ways. *)
Lemma exn_main_table_ends (h : Host) (table : Element) :
  (exists d, Exn.main_table h table = ([PrintErr d], Returns 2))
  \/ (exists dir headers data,
        Exn.main_table h table
        = ([WriteCsv dir "output.csv" (headers :: data);
            PrintDone (length data) dir "output.csv"], Returns 0))
  \/ (exists e,
        Exn.main_table h table = ([], Raises e)
        \/ (exists dir,
              Exn.main_table h table = ([OpenedCsv dir "output.csv"], Raises e))
        \/ (exists dir rows,
              Exn.main_table h table
              = ([WriteCsv dir "output.csv" rows], Raises e))).
Proof.
  unfold Exn.main_table, Exn.print_return.
  destruct (Exn.parse_rows (list_cap h) table) as [[|headers data_rows] | e];
    [| | right; right; eauto].
  - destruct (host_print h (PrintErr NoRows)); [left | right; right]; eauto.
  - destruct (host_cwd h) as [dir | e]; [|right; right; eauto].
    destruct (host_open h dir) as [u | e]; [|right; right; eauto].
    destruct (host_write h dir _) as [u' | e]; [|right; right; eauto 6].
    destruct (host_print h _) as [u'' | e]; [right; left | right; right];
      eauto 8.
Qed.

(** X12. A run ends in one of three ways.  It returns 2, having
    printed exactly one diagnostic and opened no file.  Or it returns
    0, having written output.csv with the header row first and
    reported the number of data rows.  Or an exception leaves [main]:
    then no diagnostic has been printed, and the file is untouched
    unless the exception came from writing the rows, which leaves the
    file opened, or from the report after a complete write.  So a
    status 0 means a complete file and a status 2 means no file. *)
Theorem run_ends_in_one_of_three_ways (h : Host) :
  (exists d : Diagnostic, Exn.main h = ([PrintErr d], Returns 2))
  \/ (exists (dir : string) (headers : list string) (data : list (list string)),
        Exn.main h
        = ([WriteCsv dir "output.csv" (headers :: data);
            PrintDone (length data) dir "output.csv"], Returns 0))
  \/ (exists e : Exception,
        Exn.main h = ([], Raises e)
        \/ (exists dir : string,
              Exn.main h = ([OpenedCsv dir "output.csv"], Raises e))
        \/ (exists (dir : string) (rows : list (list string)),
              Exn.main h = ([WriteCsv dir "output.csv" rows], Raises e))).
Proof.
  unfold Exn.main, Exn.print_return.
  destruct (host_input h) as [line | e]; [|right; right; eauto].
  destruct (Exn.is_existing_file h (typed_path line)) as [[|] | e];
    [| | right; right; eauto].
  - destruct (host_parse h (typed_path line)) as [[e | root] | e];
      [| | right; right; eauto].
    + destruct (host_print h (PrintErr (XmlParseFailed e)));
        [left | right; right]; eauto.
    + destruct (find "Worksheet" root) as [ws|].
      * destruct (find "Table" ws) as [table|].
        -- apply exn_main_table_ends.
        -- destruct (host_print h (PrintErr NoTable));
             [left | right; right]; eauto.
      * destruct (host_print h (PrintErr NoWorksheet));
          [left | right; right]; eauto.
  - destruct (host_print h (PrintErr (FileNotFound (mkPath (typed_path line)))));
      [left | right; right]; eauto.
Qed.






